(** * spore-sniper: the poll / detect / buy-once control logic of [src/index.ts]

    A shallow embedding of the TypeScript program and the properties its
    specification states about it.

    - JavaScript strings are sequences of UTF-16 code units ([list N]);
      [String.prototype.trim] is written out over them.
    - Values that come back from [res.json()] are [JsValue]s; truthiness and
      property access follow the language.
    - An [async] function is a finite tree of synchronous actions and awaited
      requests ([Proc]); [try]/[catch] is a combinator over such trees.
    - The event loop is explicit: a sub-flow runs up to its next [await], the
      environment settles one pending request at a time, and
      [Promise.all] joins two sub-flows.

    What stays outside: the wallet and the RPC client are parameters of the
    program (any function, any outcome); a request that the environment
    never settles leaves its flow pending; [console.log] and [console.error]
    only write. *)

From Stdlib Require Import List Bool Arith ZArith NArith QArith Lia String Ascii.
From Stdlib Require Import DecimalString.
Import ListNotations.

Set Implicit Arguments.
Set Warnings "-register-all".
Local Open Scope Z_scope.
Local Open Scope list_scope.

(* ================================================================== *)
(** ** JavaScript strings *)

(** A string is its sequence of UTF-16 code units. *)
Definition jsstring := list N.

(** A literal of the source, read code unit by code unit. *)
Definition str (s : string) : jsstring :=
  List.map N_of_ascii (list_ascii_of_string s).

(** The code points [String.prototype.trim] strips: ECMAScript's WhiteSpace
    and LineTerminator productions.  All of them lie in the basic plane, so
    the test is per code unit. *)
Definition isWhiteSpace (c : N) : bool :=
  ((9 <=? c) && (c <=? 13) ||
   (c =? 32) || (c =? 160) || (c =? 5760) ||
   ((8192 <=? c) && (c <=? 8202)) ||
   (c =? 8232) || (c =? 8233) || (c =? 8239) || (c =? 8287) ||
   (c =? 12288) || (c =? 65279))%N.

Fixpoint dropWhile {A} (f : A -> bool) (l : list A) : list A :=
  match l with
  | [] => []
  | x :: t => if f x then dropWhile f t else l
  end.

Definition trimStart (s : jsstring) : jsstring := dropWhile isWhiteSpace s.
Definition trimEnd (s : jsstring) : jsstring := rev (dropWhile isWhiteSpace (rev s)).
Definition trim (s : jsstring) : jsstring := trimEnd (trimStart s).

(** Surrogate code units. *)
Definition isHighSurrogate (c : N) : bool := ((55296 <=? c) && (c <=? 56319))%N.
Definition isLowSurrogate (c : N) : bool := ((56320 <=? c) && (c <=? 57343))%N.

(** The conversion of a string to a USVString that the URL interfaces apply
    to their arguments: a surrogate that is not half of a pair becomes
    U+FFFD, everything else stays. *)
Fixpoint toUSVString (s : jsstring) : jsstring :=
  match s with
  | [] => []
  | c :: rest =>
      if isHighSurrogate c then
        match rest with
        | d :: rest' =>
            if isLowSurrogate d then c :: d :: toUSVString rest'
            else 65533%N :: toUSVString rest
        | [] => [65533%N]
        end
      else if isLowSurrogate c then 65533%N :: toUSVString rest
      else c :: toUSVString rest
  end.

(** [n.toString()] for an integer-valued number. *)
Definition toString (n : Z) : jsstring := str (NilZero.string_of_int (Z.to_int n)).

(* ================================================================== *)
(** ** JavaScript values *)

(** What [res.json()] can produce, plus [undefined].  A number is kept as a
    rational: only whether it is zero matters to the program. *)
Inductive JsValue : Type :=
| JUndefined
| JNull
| JBool (b : bool)
| JNum (q : Q)
| JStr (s : jsstring)
| JArr (items : list JsValue)
| JObj (fields : list (jsstring * JsValue)).

Fixpoint jsstring_eqb (a b : jsstring) : bool :=
  match a, b with
  | [], [] => true
  | x :: a', y :: b' => (x =? y)%N && jsstring_eqb a' b'
  | _, _ => false
  end.

(** ToBoolean. *)
Definition truthy (v : JsValue) : bool :=
  match v with
  | JUndefined | JNull => false
  | JBool b => b
  | JNum q => negb (Qeq_bool q 0)
  | JStr s => match s with [] => false | _ :: _ => true end
  | JArr _ | JObj _ => true
  end.

(** [v == null]: true of [null] and [undefined] only. *)
Definition looseEqNull (v : JsValue) : bool :=
  match v with
  | JUndefined | JNull => true
  | _ => false
  end.

Fixpoint lookupField (key : jsstring) (fields : list (jsstring * JsValue)) : option JsValue :=
  match fields with
  | [] => None
  | (k, v) :: rest => if jsstring_eqb k key then Some v else lookupField key rest
  end.

(** [v.key] for a key that no prototype defines ([error], [swapTransaction]):
    an own field of an object, [undefined] on every other non-nullish value.
    The program reads a property only of a value it has found truthy, or
    through [?.]. *)
Definition getProp (key : jsstring) (v : JsValue) : JsValue :=
  match v with
  | JObj fields =>
      match lookupField key fields with
      | Some x => x
      | None => JUndefined
      end
  | _ => JUndefined
  end.

(** [v?.key] *)
Definition optProp (key : jsstring) (v : JsValue) : JsValue :=
  if looseEqNull v then JUndefined else getProp key v.

(** [a ?? b] *)
Definition nullish (a b : JsValue) : JsValue :=
  if looseEqNull a then b else a.

(** Whether an object value has an own field of that name, whatever its value. *)
Definition hasField (key : jsstring) (v : JsValue) : bool :=
  match v with
  | JObj fields =>
      match lookupField key fields with
      | Some _ => true
      | None => false
      end
  | _ => false
  end.

(* ================================================================== *)
(** ** The feed schema (interfaces [ApiResultOne], [Agent], [AgentsResult]) *)

(** The nesting [result.data.json] of the wire format is flattened: each
    record holds what lies under [result.data]. *)
Record ApiResultOne : Type := {
  breedingCount : Z;
  activeCount : Z
}.

Record Agent : Type := {
  id : Z;
  appId : jsstring;
  slug : jsstring;
  name : jsstring;
  walletAddress : jsstring;
  (** declared [string]; the program reads it through [?.], so a missing or
      [null] field is [None] *)
  tokenAddress : option jsstring;
  tokenImage : jsstring;
  twitterUsername : option jsstring;
  redditUsername : option jsstring;
  parentId : option Z;
  teeVerifiedLink : option jsstring;
  proposalDuration : Z;
  generation : Z;
  createdAt : jsstring;
  status : jsstring;
  breedStatus : jsstring;
  marketCap : jsstring;
  balance : jsstring;
  capabilities : list jsstring
}.

Record AgentsResult : Type := {
  json : list Agent;
  meta : list (jsstring * list jsstring)
}.

(** [type SporeApiResponse = [ApiResultOne, AgentsResult]] *)
Definition SporeApiResponse : Type := (ApiResultOne * AgentsResult)%type.

(* ================================================================== *)
(** ** Configuration constants *)

Definition SPORE_API_URL : jsstring :=
  str "https://www.spore.fun/api/trpc/status,listAgent?batch=1".

Definition POLL_INTERVAL_MS : Z := 100.

Definition AGENT_ABEL_ID : Z := 6.
Definition AGENT_TRINITY_ID : Z := 7.

(* ================================================================== *)
(** ** Detection (lines 185-193 of [pollSporeApi]) *)

(** [agents.find((agent) => agent.id === target)] *)
Definition findAgent (target : Z) (agents : list Agent) : option Agent :=
  List.find (fun agent => agent.(id) =? target) agents.

(** [a?.tokenAddress?.trim() ?? ''] *)
Definition trimmedToken (a : option Agent) : jsstring :=
  match a with
  | None => []
  | Some agent =>
      match agent.(tokenAddress) with
      | None => []
      | Some t => trim t
      end
  end.

Definition tokenOf (target : Z) (agents : list Agent) : jsstring :=
  trimmedToken (findAgent target agents).

(** [abelToken.length > 0 || trinityToken.length > 0] *)
Definition revealDetected (abelToken trinityToken : jsstring) : bool :=
  (0 <? List.length abelToken)%nat || (0 <? List.length trinityToken)%nat.

(* ================================================================== *)
(** ** Exceptions, console output and asynchronous flows *)

(** What can be thrown: a value rejected by an external call, or an
    [Error] the program builds.  [new Error(`prefix${v}`)] is kept as its
    prefix and the interpolated value. *)
Inductive Exn : Type :=
| Thrown (reason : JsValue)
| NewError (message : jsstring) (interpolated : option JsValue).

(** How a call or an awaited promise ends. *)
Inductive Outcome (X : Type) : Type :=
| Returns (x : X)
| Throws (e : Exn).
Arguments Returns {X} x.
Arguments Throws {X} e.

(** An argument of [console.log] / [console.error]. *)
Inductive LogArg : Type :=
| Val (v : JsValue)
| Err (e : Exn).

(** Synchronous effects of the program. *)
Inductive Act : Type :=
| ConsoleLog (args : list LogArg)
| ConsoleError (args : list LogArg)
| SetDone                      (* done = true *)
| SetTimeout (ms : Z).         (* setTimeout(pollSporeApi, ms) *)

(** An [async] function body over the awaitable requests [E]: it returns,
    throws, performs a synchronous effect, or awaits a request and goes on
    with how the request settled. *)
Inductive Proc (E : Type -> Type) (R : Type) : Type :=
| Ret (r : R)
| Throw (e : Exn)
| Do (a : Act) (k : Proc E R)
| Await (X : Type) (req : E X) (k : Outcome X -> Proc E R).
Arguments Ret {E R} r.
Arguments Throw {E R} e.
Arguments Do {E R} a k.
Arguments Await {E R X} req k.

Fixpoint bind {E A B} (p : Proc E A) (f : A -> Proc E B) : Proc E B :=
  match p with
  | Ret r => f r
  | Throw e => Throw e
  | Do a k => Do a (bind k f)
  | Await req k => Await req (fun o => bind (k o) f)
  end.

(** [try { p } catch (error) { h error }] *)
Fixpoint tryCatch {E R} (p : Proc E R) (h : Exn -> Proc E R) : Proc E R :=
  match p with
  | Ret r => Ret r
  | Throw e => h e
  | Do a k => Do a (tryCatch k h)
  | Await req k => Await req (fun o => tryCatch (k o) h)
  end.

(** [await req]: the value, or the rejection rethrown. *)
Definition await {E X} (req : E X) : Proc E X :=
  Await req (fun o => match o with Returns x => Ret x | Throws e => Throw e end).

(** A synchronous library call that may throw. *)
Definition call {E X} (o : Outcome X) : Proc E X :=
  match o with Returns x => Ret x | Throws e => Throw e end.

Definition act {E} (a : Act) : Proc E unit := Do a (Ret tt).

Declare Scope proc_scope.
Delimit Scope proc_scope with proc.
Notation "x <- p ;; q" := (bind p (fun x => q))
  (at level 61, p at next level, right associativity) : proc_scope.
Notation "p ;; q" := (bind p (fun _ => q))
  (at level 61, right associativity) : proc_scope.
Local Open Scope proc_scope.

(* ================================================================== *)
(** ** Requests of a swap sub-flow *)

(** [new URL(base)] with its [searchParams]. *)
Record Url : Type := {
  href : jsstring;
  searchParams : list (jsstring * jsstring)
}.

(** The first pair named [key] takes [value] and the other pairs of that
    name are removed; with no such pair, the pair is appended. *)
Fixpoint setParam (key value : jsstring) (ps : list (jsstring * jsstring))
  : list (jsstring * jsstring) :=
  match ps with
  | [] => [(key, value)]
  | (k, v) :: rest =>
      if jsstring_eqb k key
      then (k, value) :: List.filter (fun p => negb (jsstring_eqb (fst p) key)) rest
      else (k, v) :: setParam key value rest
  end.

(** [url.searchParams.set(key, value)]: both arguments are taken as
    USVStrings. *)
Definition searchParams_set (key value : jsstring) (u : Url) : Url :=
  {| href := u.(href);
     searchParams := setParam (toUSVString key) (toUSVString value) u.(searchParams) |}.

(** The object given to [JSON.stringify] for the swap request. *)
Record SwapBody : Type := {
  quoteResponse : JsValue;
  userPublicKey : jsstring;
  wrapAndUnwrapSol : bool
}.

Record RequestInit : Type := {
  method : jsstring;
  headers : list (jsstring * jsstring);
  body : SwapBody
}.

Definition RawTransaction := list N.

Record SendOptions : Type := {
  skipPreflight : bool;
  maxRetries : Z
}.

Record BlockhashWithExpiry : Type := {
  blockhash : jsstring;
  lastValidBlockHeight : Z
}.

Record ConfirmStrategy : Type := {
  cs_blockhash : jsstring;
  cs_lastValidBlockHeight : Z;
  cs_signature : jsstring
}.

(** [RpcResponseAndContext<SignatureResult>]: [{ context: { slot }, value: { err } }] *)
Record Confirmation : Type := {
  context_slot : Z;
  value_err : JsValue
}.

Inductive Net : Type -> Type :=
| FetchJson (url : Url) (init : option RequestInit) : Net JsValue
    (* fetch(url, init).then((res) => res.json()) *)
| SendRawTransaction (raw : RawTransaction) (options : SendOptions) : Net jsstring
| GetLatestBlockhash : Net BlockhashWithExpiry
| ConfirmTransaction (strategy : ConfirmStrategy) : Net Confirmation.

(** A swap sub-flow. *)
Definition Flow := Proc Net unit.

(* ================================================================== *)
(** ** Requests of a poll tick *)

(** The [Response] object [fetch] resolves to. *)
Record Response : Type := {
  resp_status : Z;
  resp_body : jsstring
}.

Inductive PollE : Type -> Type :=
| Fetch (url : jsstring) : PollE Response
| ResponseJson (resp : Response) : PollE SporeApiResponse
    (* (await resp.json()) as SporeApiResponse *)
| PromiseAll (p q : Flow) : PollE (unit * unit).
    (* Promise.all([p, q]) *)

(** How a block ends: control falls out of it, or a [return] left the
    function. *)
Inductive Completion : Type := Normal | Returned.

(* ================================================================== *)
(** ** Running flows: the event loop made explicit *)

(** What a flow is seen to do: a synchronous effect, or a request sent. *)
Inductive Obs (E : Type -> Type) : Type :=
| Acted (a : Act)
| Issued (X : Type) (req : E X).
Arguments Acted {E} a.
Arguments Issued {E X} req.

(** How the environment settles a request. *)
Definition Oracle (E : Type -> Type) : Type := forall X, E X -> Outcome X.

(** Run the synchronous part of a flow: up to its next [await], whose request
    is sent, or to its end. *)
Fixpoint start {E R} (p : Proc E R) : list (Obs E) * Proc E R :=
  match p with
  | Do a k => let (tr, p') := start k in (Acted a :: tr, p')
  | Await req _ => ([Issued req], p)
  | _ => ([], p)
  end.

(** The awaited request settles; the flow goes on to its next [await].  A
    flow that awaits nothing is left as it is. *)
Definition settle {E R} (o : Oracle E) (p : Proc E R) : list (Obs E) * Proc E R :=
  match p with
  | Await req k => start (k (o _ req))
  | _ => ([], p)
  end.

Fixpoint resume {E R} (os : list (Oracle E)) (p : Proc E R) : list (Obs E) * Proc E R :=
  match os with
  | [] => ([], p)
  | o :: rest =>
      let (tr, p') := settle o p in
      let (tr', p'') := resume rest p' in
      (tr ++ tr', p'')
  end.

(** A flow on its own: started, then its requests settled one after the
    other by [os]. *)
Definition runSeq {E R} (os : list (Oracle E)) (p : Proc E R) : list (Obs E) * Proc E R :=
  let (tr, p') := start p in
  let (tr', p'') := resume os p' in
  (tr ++ tr', p'').

Definition isRet {E R} (p : Proc E R) : bool :=
  match p with Ret _ => true | _ => false end.
Definition isAwait {E R} (p : Proc E R) : bool :=
  match p with Await _ _ => true | _ => false end.

(** *** [Promise.all] over two flows *)

(** Position in the array given to [Promise.all]. *)
Inductive Side : Type := First | Second.

Definition Side_eqb (a b : Side) : bool :=
  match a, b with
  | First, First | Second, Second => true
  | _, _ => false
  end.

(** One turn of the event loop: the pending request of one sub-flow settles. *)
Record Settle (E : Type -> Type) : Type := {
  side : Side;
  answer : Oracle E
}.

Inductive JoinState (E : Type -> Type) : Type :=
| AllResolved
    (* every input promise resolved *)
| Rejected (e : Exn) (other : Proc E unit)
    (* an input rejected: the join rejects at once, the other flow is left
       running on its own *)
| Waiting (p q : Proc E unit).
Arguments AllResolved {E}.
Arguments Rejected {E} e other.
Arguments Waiting {E} p q.

Definition joinStatus {E} (p q : Proc E unit) : JoinState E :=
  match p, q with
  | Throw e, _ => Rejected e q
  | _, Throw e => Rejected e p
  | Ret _, Ret _ => AllResolved
  | _, _ => Waiting p q
  end.

Definition tag {E} (s : Side) (tr : list (Obs E)) : list (Side * Obs E) :=
  List.map (fun o => (s, o)) tr.

Fixpoint joinLoop {E} (sched : list (Settle E)) (p q : Proc E unit)
  : list (Side * Obs E) * JoinState E * list (Settle E) :=
  match joinStatus p q with
  | Waiting _ _ =>
      match sched with
      | [] => ([], Waiting p q, [])
      | s :: rest =>
          match s.(side) with
          | First =>
              let (tr, p') := settle s.(answer) p in
              let '(tr', st, rest') := joinLoop rest p' q in
              (tag First tr ++ tr', st, rest')
          | Second =>
              let (tr, q') := settle s.(answer) q in
              let '(tr', st, rest') := joinLoop rest p q' in
              (tag Second tr ++ tr', st, rest')
          end
      end
  | st => ([], st, sched)
  end.

(** [Promise.all([p, q])]: both calls run their synchronous part in array
    order, then the environment settles pending requests in the order of
    [sched]. *)
Definition join {E} (sched : list (Settle E)) (p q : Proc E unit)
  : list (Side * Obs E) * JoinState E * list (Settle E) :=
  let (tr1, p1) := start p in
  let (tr2, q1) := start q in
  let '(tr, st, rest) := joinLoop sched p1 q1 in
  (tag First tr1 ++ tag Second tr2 ++ tr, st, rest).

(** What one sub-flow is seen to do inside a join, and what was answered to it. *)
Definition project {E} (s : Side) (tr : list (Side * Obs E)) : list (Obs E) :=
  List.map snd (List.filter (fun x => Side_eqb (fst x) s) tr).

Definition answersTo {E} (s : Side) (sched : list (Settle E)) : list (Oracle E) :=
  List.map (@answer E) (List.filter (fun x => Side_eqb x.(side) s) sched).

(** *** A poll tick *)

(** The module-level state: [done], and the callbacks [setTimeout] has
    registered. *)
Record Globals : Type := {
  done : bool;
  timers : list Z
}.

Definition perform (a : Act) (g : Globals) : Globals :=
  match a with
  | SetDone => {| done := true; timers := g.(timers) |}
  | SetTimeout ms => {| done := g.(done); timers := g.(timers) ++ [ms] |}
  | ConsoleLog _ | ConsoleError _ => g
  end.

Definition performObs {E} (o : Obs E) (g : Globals) : Globals :=
  match o with
  | Acted a => perform a g
  | Issued _ => g
  end.

Inductive PollObs : Type :=
| Own (o : Obs PollE)
| Sub (s : Side) (o : Obs Net).

(** The environment of one tick: how the feed answers, and the order and
    outcomes in which the swap requests settle. *)
Record TickEnv : Type := {
  fetched : jsstring -> Outcome Response;
  parsed : Response -> Outcome SporeApiResponse;
  schedule : list (Settle Net)
}.

Inductive TickStatus (R : Type) : Type :=
| Resolved (r : R)
| Failed (e : Exn)
| Blocked.    (* still awaiting when the environment has nothing more to settle *)
Arguments Resolved {R} r.
Arguments Failed {R} e.
Arguments Blocked {R}.

Record TickResult (R : Type) : Type := {
  tick_trace : list PollObs;
  tick_status : TickStatus R;
  tick_globals : Globals;
  tick_detached : list Flow
}.

Definition observed {R} (o : PollObs) (r : TickResult R) : TickResult R :=
  {| tick_trace := o :: r.(tick_trace); tick_status := r.(tick_status);
     tick_globals := r.(tick_globals); tick_detached := r.(tick_detached) |}.

Definition subTrace (tr : list (Side * Obs Net)) : list PollObs :=
  List.map (fun x => Sub (fst x) (snd x)) tr.

Definition afterJoin {R} (tr : list (Side * Obs Net)) (left : list Flow) (r : TickResult R)
  : TickResult R :=
  {| tick_trace := subTrace tr ++ r.(tick_trace); tick_status := r.(tick_status);
     tick_globals := r.(tick_globals); tick_detached := left ++ r.(tick_detached) |}.

Fixpoint runPoll {R} (env : TickEnv) (p : Proc PollE R) (g : Globals) : TickResult R :=
  match p with
  | Ret r => {| tick_trace := []; tick_status := Resolved r; tick_globals := g; tick_detached := [] |}
  | Throw e => {| tick_trace := []; tick_status := Failed e; tick_globals := g; tick_detached := [] |}
  | Do a k => observed (Own (Acted a)) (runPoll env k (perform a g))
  | Await req k =>
      observed (Own (Issued req))
        (match req in PollE X return (Outcome X -> Proc PollE R) -> TickResult R with
         | Fetch url => fun k => runPoll env (k (env.(fetched) url)) g
         | ResponseJson resp => fun k => runPoll env (k (env.(parsed) resp)) g
         | PromiseAll p q => fun k =>
             let '(tr, st, _) := join env.(schedule) p q in
             let g' := fold_left (fun g x => performObs (snd x) g) tr g in
             match st with
             | AllResolved => afterJoin tr [] (runPoll env (k (Returns (tt, tt))) g')
             | Rejected e other => afterJoin tr [other] (runPoll env (k (Throws e)) g')
             | Waiting _ _ =>
                 {| tick_trace := subTrace tr; tick_status := Blocked; tick_globals := g'; tick_detached := [] |}
             end
         end k)
  end.

(* ================================================================== *)
(** ** Start-up (lines 64-86) *)

(** [process.env]: the variables that are set, by name. *)
Definition ProcessEnv : Type := jsstring -> option jsstring.

(** [process.env.NAME ?? fallback] *)
Definition envOr (env : ProcessEnv) (name fallback : jsstring) : jsstring :=
  match env name with
  | Some v => v
  | None => fallback
  end.

Definition RPC_URL (env : ProcessEnv) : jsstring :=
  envOr env (str "RPC_URL") (str "https://api.mainnet-beta.solana.com").

(** How the evaluation of the module ends: [process.exit(code)] after the
    console calls made so far, an exception nobody catches, or the rest of
    the module running. *)
Inductive ModuleRun (A : Type) : Type :=
| Exited (code : Z) (log : list Act)
| Crashed (e : Exn)
| Ran (a : A).
Arguments Exited {A} code log.
Arguments Crashed {A} e.
Arguments Ran {A} a.

Section Startup.

Variable Connection : Type.
Variable Keypair : Type.
(** [new Connection(url)] *)
Variable newConnection : jsstring -> Outcome Connection.
(** [bs58.decode(s)] *)
Variable bs58_decode : jsstring -> Outcome (list N).
(** [Keypair.fromSecretKey(bytes)] *)
Variable Keypair_fromSecretKey : list N -> Outcome Keypair.

(** Lines 77-86, then [rest]: the module from line 88 on, which uses
    [connection] and the wallet made of [keypair]. *)
Definition runModule {A} (env : ProcessEnv) (rest : Connection -> Keypair -> A)
  : ModuleRun A :=
  match newConnection (RPC_URL env) with
  | Throws e => Crashed e
  | Returns connection =>
      let privateKeyBase58 := envOr env (str "PRIVATE_KEY") (str "") in
      if negb (truthy (JStr privateKeyBase58)) then
        Exited 1
          [ConsoleError
             [Val (JStr (str "Error: PRIVATE_KEY environment variable is not set."))]]
      else
        match bs58_decode privateKeyBase58 with
        | Throws e => Crashed e
        | Returns secretKey =>
            match Keypair_fromSecretKey secretKey with
            | Throws e => Crashed e
            | Returns keypair => Ran (rest connection keypair)
            end
        end
  end.

End Startup.

(** The ticks that came to happen. *)
Definition ticksOf {R} (m : ModuleRun (list (TickResult R))) : list (TickResult R) :=
  match m with
  | Ran ticks => ticks
  | Exited _ _ | Crashed _ => []
  end.

(* ================================================================== *)
(** ** Sample data *)


Definition sampleAgent (i : Z) (token : option jsstring) : Agent :=
  {| id := i; appId := []; slug := []; name := []; walletAddress := [];
     tokenAddress := token; tokenImage := []; twitterUsername := None;
     redditUsername := None; parentId := None; teeVerifiedLink := None;
     proposalDuration := 0; generation := 0; createdAt := []; status := [];
     breedStatus := []; marketCap := []; balance := []; capabilities := [] |}.

Definition sampleResponse : Response := {| resp_status := 200; resp_body := [] |}.

Definition sampleData (agents : list Agent) : SporeApiResponse :=
  ({| breedingCount := 0; activeCount := 0 |}, {| json := agents; meta := [] |}).

(** A feed that answers with the given agents. *)
Definition feedOf (agents : list Agent) (sched : list (Settle Net)) : TickEnv :=
  {| fetched := fun _ => Returns sampleResponse;
     parsed := fun _ => Returns (sampleData agents);
     schedule := sched |}.

(** A feed whose fetch fails. *)
Definition feedDown : TickEnv :=
  {| fetched := fun _ => Throws (Thrown (JStr (str "ECONNRESET")));
     parsed := fun _ => Returns (sampleData []);
     schedule := [] |}.

(** Every request succeeds. *)
Definition happyOracle : Oracle Net := fun X req =>
  match req in Net X return Outcome X with
  | FetchJson _ None => Returns (JObj [(str "outAmount", JStr (str "5"))])
  | FetchJson _ (Some _) => Returns (JObj [(str "swapTransaction", JStr (str "AQID"))])
  | SendRawTransaction _ _ => Returns (str "sig1")
  | GetLatestBlockhash => Returns {| blockhash := str "bh"; lastValidBlockHeight := 42 |}
  | ConfirmTransaction _ => Returns {| context_slot := 1; value_err := JNull |}
  end.

(** The build request throws; every other request succeeds. *)
Definition buildThrows : Oracle Net := fun X req =>
  match req in Net X return Outcome X with
  | FetchJson _ (Some _) => Throws (Thrown (JStr (str "build down")))
  | other => happyOracle other
  end.

(** A quote response that carries an [error] field holding [null]. *)
Definition nullErrorQuote : JsValue :=
  JObj [(str "error", JNull); (str "outAmount", JStr (str "5"))].

Definition nullErrorOracle : Oracle Net := fun X req =>
  match req in Net X return Outcome X with
  | FetchJson _ None => Returns nullErrorQuote
  | other => happyOracle other
  end.

Definition sampleWallet : jsstring := str "Wallet1".
Definition sampleBufferFrom (v : JsValue) : Outcome (list N) :=
  match v with
  | JStr s => Returns s
  | _ => Throws (Thrown (JStr (str "TypeError")))
  end.
Definition sampleDeserialize (buf : list N) : Outcome (list N) := Returns buf.
Definition sampleSign (tx : list N) : Outcome (list N) := Returns (tx ++ [1%N]).
Definition sampleSerialize (tx : list N) : Outcome RawTransaction := Returns tx.

(** Entity 6 reveals ["Mint1"], entity 7 holds the empty string. *)
Definition scenarioB : list Agent :=
  [sampleAgent 6 (Some (str "Mint1")); sampleAgent 7 (Some (str ""))].

(** The first sub-flow's requests settle one after the other, all well. *)
Definition firstSettlesFive : list (Settle Net) :=
  repeat {| side := First; answer := happyOracle |} 5.

(** The first sub-flow's build request throws while the second sub-flow
    runs to its confirmation. *)
Definition buildFailsFirst : list (Settle Net) :=
  [ {| side := First; answer := buildThrows |};
    {| side := Second; answer := happyOracle |};
    {| side := First; answer := buildThrows |};
    {| side := Second; answer := happyOracle |};
    {| side := Second; answer := happyOracle |};
    {| side := Second; answer := happyOracle |};
    {| side := Second; answer := happyOracle |} ].

(** Environments of the process: no variable set; only the key set. *)
Definition envEmpty : ProcessEnv := fun _ => None.

Definition envWithKey : ProcessEnv := fun name =>
  if jsstring_eqb name (str "PRIVATE_KEY") then Some (str "3xKey") else None.

Definition sampleNewConnection (url : jsstring) : Outcome jsstring := Returns url.
Definition sampleDecode (s : jsstring) : Outcome (list N) := Returns s.
Definition sampleFromSecretKey (bytes : list N) : Outcome (list N) := Returns bytes.
Definition samplePublicKey (keypair : list N) : jsstring := keypair.
Definition sampleSignWith (keypair tx : list N) : Outcome (list N) := Returns (tx ++ keypair).

(** Both entities reveal a token. *)
Definition bothRevealed : list Agent :=
  [sampleAgent 7 (Some (str "MintT ")); sampleAgent 6 (Some (str " MintA"))].

(** The submission succeeds, [getLatestBlockhash] throws. *)
Definition blockhashThrows : Oracle Net := fun X req =>
  match req in Net X return Outcome X with
  | GetLatestBlockhash => Throws (Thrown (JStr (str "rpc down")))
  | other => happyOracle other
  end.

(** The build response carries no [swapTransaction]. *)
Definition noTransactionOracle : Oracle Net := fun X req =>
  match req in Net X return Outcome X with
  | FetchJson _ (Some _) => Returns (JObj [(str "note", JStr (str "empty"))])
  | other => happyOracle other
  end.

(** Entity 6 appears twice: the first holds the empty string, the second a
    token. *)
Definition tokenOnSecond : list Agent :=
  [sampleAgent 6 (Some (str "")); sampleAgent 6 (Some (str "Second"));
   sampleAgent 5 (Some (str "X"))].

(** An address whose last code unit is a high surrogate with no low
    surrogate after it. *)
Definition loneSurrogateMint : jsstring := str "Mint" ++ [55357%N].

(** Three ticks that reveal nothing: the fetch fails, the snapshot is empty,
    entity 6 holds only white space. *)
Definition quietFeeds : list TickEnv :=
  [feedDown; feedOf [] []; feedOf [sampleAgent 6 (Some (str "  "))] []].

(* ================================================================== *)
(** ** The program *)

Section Sniper.

(** [wallet.publicKey.toBase58()] *)
Variable walletPublicKey : jsstring.

(** The synchronous library calls of step 3; each may throw. *)
Variable VersionedTransaction : Type.
(** [Buffer.from(x, 'base64')] *)
Variable Buffer_from_base64 : JsValue -> Outcome (list N).
(** [VersionedTransaction.deserialize(buf)] *)
Variable deserialize : list N -> Outcome VersionedTransaction.
(** [transaction.sign([wallet.payer])] *)
Variable sign : VersionedTransaction -> Outcome VersionedTransaction.
(** [transaction.serialize()] *)
Variable serialize : VersionedTransaction -> Outcome RawTransaction.

(** [handleTxConfirmation] (lines 163-173) *)
Definition handleTxConfirmation {E} (txid : jsstring) (confirmation : Confirmation)
  : Proc E unit :=
  if looseEqNull confirmation.(value_err) then
    act (ConsoleLog [Val (JStr (str "Swap successful!"))]) ;;
    act (ConsoleLog [Val (JStr (str "View on Solscan: https://solscan.io/tx/" ++ txid))])
  else
    act (ConsoleError [Val (JStr (str "Transaction error:")); Val confirmation.(value_err)]).

(** The argument as a value: an omitted argument is [undefined]. *)
Definition mintValue (mint : option jsstring) : JsValue :=
  match mint with
  | None => JUndefined
  | Some m => JStr m
  end.

(** Lines 95-156: the body of the [try] block. *)
Definition swapSteps (mint : jsstring) : Flow :=
  act (ConsoleLog [Val (JStr (10%N :: str "Attempting to buy token: " ++ mint))]) ;;
  (* 1) Get a quote from Jupiter (SOL -> outputMint). *)
  let amountLamports := 1000000000 in
  let slippageBps := 5000 in
  let quoteUrl := {| href := str "https://quote-api.jup.ag/v6/quote"; searchParams := [] |} in
  let quoteUrl :=
    searchParams_set (str "inputMint") (str "So11111111111111111111111111111111111111112") quoteUrl in
  let quoteUrl := searchParams_set (str "outputMint") mint quoteUrl in
  let quoteUrl := searchParams_set (str "amount") (toString amountLamports) quoteUrl in
  let quoteUrl := searchParams_set (str "slippageBps") (toString slippageBps) quoteUrl in
  quoteResponse <- await (FetchJson quoteUrl None) ;;
  if negb (truthy quoteResponse) || truthy (getProp (str "error") quoteResponse) then
    Throw (NewError (str "Quote API returned an error: ")
                    (Some (optProp (str "error") quoteResponse)))
  else
  (* 2) Request the swap transaction from Jupiter *)
  let swapUrl := {| href := str "https://quote-api.jup.ag/v6/swap"; searchParams := [] |} in
  let swapBody :=
    {| quoteResponse := quoteResponse;
       userPublicKey := walletPublicKey;
       wrapAndUnwrapSol := true |} in
  swapResponse <-
    await (FetchJson swapUrl
             (Some {| method := str "POST";
                      headers := [(str "Content-Type", str "application/json")];
                      body := swapBody |})) ;;
  if negb (truthy swapResponse) || truthy (getProp (str "error") swapResponse) then
    Throw (NewError (str "Swap API returned an error: ")
                    (Some (nullish (optProp (str "error") swapResponse)
                                   (JStr (str "Unknown error")))))
  else
  let swapTransaction := getProp (str "swapTransaction") swapResponse in
  if negb (truthy swapTransaction) then
    Throw (NewError (str "No swapTransaction found in response.") None)
  else
  (* 3) Deserialize & sign the transaction *)
  swapTransactionBuf <- call (Buffer_from_base64 swapTransaction) ;;
  transaction <- call (deserialize swapTransactionBuf) ;;
  transaction <- call (sign transaction) ;;
  (* 4) Send & confirm the transaction *)
  rawTransaction <- call (serialize transaction) ;;
  txid <- await (SendRawTransaction rawTransaction
                   {| skipPreflight := true; maxRetries := 2 |}) ;;
  latestBlockHash <- await GetLatestBlockhash ;;
  confirmation <-
    await (ConfirmTransaction
             {| cs_blockhash := latestBlockHash.(blockhash);
                cs_lastValidBlockHeight := latestBlockHash.(lastValidBlockHeight);
                cs_signature := txid |}) ;;
  handleTxConfirmation txid confirmation.

(** [buyTokenWithJupiter] (lines 88-160) *)
Definition buyTokenWithJupiter (mint : option jsstring) : Flow :=
  if negb (truthy (mintValue mint))
     || negb (truthy (JStr (trim (match mint with Some m => m | None => [] end))))
  then
    act (ConsoleError
           [Val (JStr (str "buyTokenWithJupiter called with invalid outputMint:"));
            Val (mintValue mint)])
  else
    tryCatch
      (swapSteps (match mint with Some m => m | None => [] end))
      (fun error =>
         act (ConsoleError [Val (JStr (str "Jupiter swap failed:")); Err error])).

(** Lines 182-200: the body of the [try] block of [pollSporeApi]. *)
Definition pollSteps : Proc PollE Completion :=
  resp <- await (Fetch SPORE_API_URL) ;;
  data <- await (ResponseJson resp) ;;
  let agents := (snd data).(json) in
  let abel := findAgent AGENT_ABEL_ID agents in
  let trinity := findAgent AGENT_TRINITY_ID agents in
  let abelToken := trimmedToken abel in
  let trinityToken := trimmedToken trinity in
  (* If either has a non-empty token address, do the buys *)
  if revealDetected abelToken trinityToken then
    act SetDone ;;
    act (ConsoleLog
           [Val (JStr (10%N :: str "=== Detected reveal ===" ++
                       10%N :: str "Abel tokenAddress: " ++ abelToken ++
                       10%N :: str "Trinity tokenAddress: " ++ trinityToken ++
                       10%N :: str "Initiating Jupiter swaps..."))]) ;;
    _ <- await (PromiseAll (buyTokenWithJupiter (Some abelToken))
                           (buyTokenWithJupiter (Some trinityToken))) ;;
    Ret Returned
  else
    Ret Normal.

(** [pollSporeApi] (lines 177-207), called with the value [done] has at the
    call. *)
Definition pollSporeApi (done : bool) : Proc PollE unit :=
  (* If we've already done the buys, no need to continue *)
  if done then Ret tt
  else
    completion <-
      tryCatch pollSteps
        (fun error =>
           act (ConsoleError [Val (JStr (str "Error polling Spore API:")); Err error]) ;;
           Ret Normal) ;;
    match completion with
    | Returned => Ret tt
    | Normal =>
        (* Use setTimeout to ensure only one request at a time. *)
        act (SetTimeout POLL_INTERVAL_MS)
    end.



(** *** The process: [let done = false], the first call on line 210, and the
    calls the timers make *)

Definition initialGlobals : Globals := {| done := false; timers := [] |}.

(** One call of [pollSporeApi()] in the environment [env]. *)
Definition runTick (env : TickEnv) (g : Globals) : TickResult unit :=
  runPoll env (pollSporeApi g.(done)) g.

Definition hasSettled {R} (r : TickResult R) : bool :=
  match r.(tick_status) with
  | Blocked => false
  | _ => true
  end.

(** After a tick has settled, the oldest registered timer fires and calls
    [pollSporeApi] again; with no timer left the process is idle. *)
Fixpoint eventLoop (envs : list TickEnv) (g : Globals) : list (TickResult unit) :=
  match envs with
  | [] => []
  | env :: rest =>
      match g.(timers) with
      | [] => []
      | _ :: later =>
          let r := runTick env {| done := g.(done); timers := later |} in
          r :: (if hasSettled r then eventLoop rest r.(tick_globals) else [])
      end
  end.

(** The whole run, one environment per tick that comes to happen. *)
Definition process (envs : list TickEnv) : list (TickResult unit) :=
  match envs with
  | [] => []
  | env :: rest =>
      let r := runTick env initialGlobals in
      r :: (if hasSettled r then eventLoop rest r.(tick_globals) else [])
  end.

(** [pollSporeApi] called once per environment, one call after the other,
    whether or not a timer asked for it. *)
Fixpoint callEach (envs : list TickEnv) (g : Globals) : list (TickResult unit) :=
  match envs with
  | [] => []
  | env :: rest =>
      let r := runTick env g in
      r :: callEach rest r.(tick_globals)
  end.

(** Entering the execution phase is sending the [Promise.all] of the two
    swaps. *)
Definition isFanOut (o : PollObs) : bool :=
  match o with
  | Own (Issued (PromiseAll _ _)) => true
  | _ => false
  end.

Definition fanOuts (rs : list (TickResult unit)) : nat :=
  List.length (List.filter isFanOut (List.concat (List.map (@tick_trace unit) rs))).

(** The values [done] takes: at the start, then after each tick. *)
Definition doneHistory (g : Globals) (rs : list (TickResult unit)) : list bool :=
  g.(done) :: List.map (fun r => r.(tick_globals).(done)) rs.

(* ================================================================== *)
(** ** Vocabulary of the statements *)

(** The address argument as the specification sorts it: absent, empty or
    made of white space only. *)
Definition isBlank (mint : option jsstring) : bool :=
  match mint with
  | None => true
  | Some m => forallb isWhiteSpace m
  end.

(** The [catch] clause of [buyTokenWithJupiter] (line 158). *)
Definition swapFailed (error : Exn) : Act :=
  ConsoleError [Val (JStr (str "Jupiter swap failed:")); Err error].

(** The diagnostic of the guard (line 90). *)
Definition invalidMint (mint : option jsstring) : Act :=
  ConsoleError [Val (JStr (str "buyTokenWithJupiter called with invalid outputMint:"));
                Val (mintValue mint)].

(** The first element, if any, fails the test. *)
Definition headStops {A} (f : A -> bool) (l : list A) : Prop :=
  match l with
  | [] => True
  | x :: _ => f x = false
  end.

(** No path through the flow ends in a rejection. *)
Inductive NeverRejects {E R} : Proc E R -> Prop :=
| NR_Ret (r : R) : NeverRejects (Ret r)
| NR_Do (a : Act) (k : Proc E R) : NeverRejects k -> NeverRejects (Do a k)
| NR_Await (X : Type) (req : E X) (k : Outcome X -> Proc E R) :
    (forall o, NeverRejects (k o)) -> NeverRejects (Await req k).

(** Every path through the flow awaits at most [n] requests. *)
Inductive AwaitsAtMost {E R} : nat -> Proc E R -> Prop :=
| AM_Ret (n : nat) (r : R) : AwaitsAtMost n (Ret r)
| AM_Throw (n : nat) (e : Exn) : AwaitsAtMost n (Throw e)
| AM_Do (n : nat) (a : Act) (k : Proc E R) : AwaitsAtMost n k -> AwaitsAtMost n (Do a k)
| AM_Await (n : nat) (X : Type) (req : E X) (k : Outcome X -> Proc E R) :
    (forall o, AwaitsAtMost n (k o)) -> AwaitsAtMost (S n) (Await req k).

Definition isDo {E R} (p : Proc E R) : bool :=
  match p with Do _ _ => true | _ => false end.

Definition attemptLog (mint : jsstring) : Act :=
  ConsoleLog [Val (JStr (10%N :: str "Attempting to buy token: " ++ mint))].

(** The quote request: one SOL in lamports, 5000 basis points, for the
    address as [searchParams.set] takes it. *)
Definition quoteRequest (mint : jsstring) : Net JsValue :=
  FetchJson
    {| href := str "https://quote-api.jup.ag/v6/quote";
       searchParams :=
         [(str "inputMint", str "So11111111111111111111111111111111111111112");
          (str "outputMint", toUSVString mint);
          (str "amount", str "1000000000");
          (str "slippageBps", str "5000")] |}
    None.

Definition buildRequest (quote : JsValue) : Net JsValue :=
  FetchJson
    {| href := str "https://quote-api.jup.ag/v6/swap"; searchParams := [] |}
    (Some {| method := str "POST";
             headers := [(str "Content-Type", str "application/json")];
             body := {| quoteResponse := quote;
                        userPublicKey := walletPublicKey;
                        wrapAndUnwrapSol := true |} |}).

Definition submitRequest (raw : RawTransaction) : Net jsstring :=
  SendRawTransaction raw {| skipPreflight := true; maxRetries := 2 |}.

Definition confirmRequest (latest : BlockhashWithExpiry) (txid : jsstring) : Net Confirmation :=
  ConfirmTransaction
    {| cs_blockhash := latest.(blockhash);
       cs_lastValidBlockHeight := latest.(lastValidBlockHeight);
       cs_signature := txid |}.

(** Step 3 as one function of the [swapTransaction] field. *)
Definition signedTransaction (swapTransaction : JsValue) : Outcome RawTransaction :=
  match Buffer_from_base64 swapTransaction with
  | Throws e => Throws e
  | Returns buf =>
      match deserialize buf with
      | Throws e => Throws e
      | Returns tx =>
          match sign tx with
          | Throws e => Throws e
          | Returns signed => serialize signed
          end
      end
  end.

(** The response is falsy, or its [error] field is truthy. *)
Definition refused (response : JsValue) : bool :=
  negb (truthy response) || truthy (getProp (str "error") response).

Definition quoteError (response : JsValue) : Exn :=
  NewError (str "Quote API returned an error: ") (Some (optProp (str "error") response)).

(** The steps of a swap that send a request. *)
Inductive ReqKind : Type := KQuote | KBuild | KSubmit | KBlockhash | KConfirm.

Definition kindOf {X} (req : Net X) : ReqKind :=
  match req with
  | FetchJson _ None => KQuote
  | FetchJson _ (Some _) => KBuild
  | SendRawTransaction _ _ => KSubmit
  | GetLatestBlockhash => KBlockhash
  | ConfirmTransaction _ => KConfirm
  end.

Definition kindsOf (tr : list (Obs Net)) : list ReqKind :=
  flat_map (fun o => match o with Issued req => [kindOf req] | Acted _ => [] end) tr.

(** Along every path the requests are of the kinds [ks], in that order,
    as far as the path goes. *)
Inductive InOrder {R} : list ReqKind -> Proc Net R -> Prop :=
| IO_Ret (ks : list ReqKind) (r : R) : InOrder ks (Ret r)
| IO_Throw (ks : list ReqKind) (e : Exn) : InOrder ks (Throw e)
| IO_Do (ks : list ReqKind) (a : Act) (k : Proc Net R) :
    InOrder ks k -> InOrder ks (Do a k)
| IO_Await (kd : ReqKind) (ks : list ReqKind) (X : Type) (req : Net X)
           (k : Outcome X -> Proc Net R) :
    kindOf req = kd -> (forall o, InOrder ks (k o)) -> InOrder (kd :: ks) (Await req k).

(** What may follow once the pending request, already sent, settles. *)
Definition ThenInOrder {R} (ks : list ReqKind) (p : Proc Net R) : Prop :=
  match p with
  | Await _ k => forall o, InOrder ks (k o)
  | Do _ _ => False
  | _ => True
  end.

Definition isConsole (a : Act) : bool :=
  match a with
  | ConsoleLog _ | ConsoleError _ => true
  | SetDone | SetTimeout _ => false
  end.

(** The flow touches the console only: neither [done] nor the timers. *)
Inductive Quiet {E R} : Proc E R -> Prop :=
| Q_Ret (r : R) : Quiet (Ret r)
| Q_Throw (e : Exn) : Quiet (Throw e)
| Q_Do (a : Act) (k : Proc E R) : isConsole a = true -> Quiet k -> Quiet (Do a k)
| Q_Await (X : Type) (req : E X) (k : Outcome X -> Proc E R) :
    (forall o, Quiet (k o)) -> Quiet (Await req k).

Definition quietObs {E} (o : Obs E) : Prop :=
  match o with
  | Acted a => isConsole a = true
  | Issued _ => True
  end.

Ltac crunch := cbn -[str toString searchParams_set].

Ltac walk :=
  repeat first
    [ progress crunch
    | constructor
    | intros [?|?]
    | match goal with
      | |- context [if ?c then _ else _] => destruct c
      | |- context [call ?o] => destruct o
      end ].

(** The [catch] clause of [pollSporeApi] (line 202). *)
Definition pollFailed (error : Exn) : Act :=
  ConsoleError [Val (JStr (str "Error polling Spore API:")); Err error].

(** The log line of a detected reveal (line 196). *)
Definition detectedLog (abelToken trinityToken : jsstring) : Act :=
  ConsoleLog
    [Val (JStr (10%N :: str "=== Detected reveal ===" ++
                10%N :: str "Abel tokenAddress: " ++ abelToken ++
                10%N :: str "Trinity tokenAddress: " ++ trinityToken ++
                10%N :: str "Initiating Jupiter swaps..."))].

Definition isAllResolved {E} (st : JoinState E) : bool :=
  match st with AllResolved => true | _ => false end.

Ltac tick_crunch :=
  cbn -[str SPORE_API_URL POLL_INTERVAL_MS join buyTokenWithJupiter tokenOf
        trimmedToken findAgent revealDetected].

(** Run a swap whose quote, build and step 3 are known to succeed up to the
    submission. *)
Ltac upto_submit m q raw H1 Hq H2 Hs Ht Eb Ed Es Hg :=
  crunch;
  change (FetchJson _ None) with (quoteRequest m); rewrite H1; crunch;
  rewrite Hq; crunch;
  change (FetchJson _ (Some _)) with (buildRequest q); rewrite H2; crunch;
  rewrite Hs; crunch; rewrite Ht; crunch;
  rewrite Eb; crunch; rewrite Ed; crunch; rewrite Es; crunch; rewrite Hg; crunch;
  change (SendRawTransaction raw _) with (submitRequest raw).

(** One disjunct of the test on line 193: [token.length > 0]. *)
Definition revealed (target : Z) (agents : list Agent) : bool :=
  (0 <? List.length (tokenOf target agents))%nat.

(** [a] is the first entity of the snapshot whose identifier is [target]. *)
Definition firstWithId (target : Z) (agents : list Agent) (a : Agent) : Prop :=
  exists pre post,
    agents = pre ++ a :: post /\
    (forall x, In x pre -> x.(id) <> target) /\
    a.(id) = target.

(** What the sub-flow at [s] is seen to do in a tick. *)
Definition subOf (s : Side) (tr : list PollObs) : list (Obs Net) :=
  flat_map (fun o => match o with
                     | Sub s' x => if Side_eqb s' s then [x] else []
                     | Own _ => []
                     end) tr.

Definition isSetTimeout (o : PollObs) : bool :=
  match o with
  | Own (Acted (SetTimeout _)) | Sub _ (Acted (SetTimeout _)) => true
  | _ => false
  end.

(** Whether a tick asked for another one. *)
Definition reschedules (tr : list PollObs) : bool := existsb isSetTimeout tr.

Definition countFanOuts (tr : list PollObs) : nat :=
  List.length (List.filter isFanOut tr).

(** How successive ticks may go from a state where [done] is [d]: while
    [done] is false a tick polls or fires; once it is true every tick is
    idle. *)
Inductive Lifetime : bool -> list (TickResult unit) -> Prop :=
| Life_end (d : bool) : Lifetime d []
| Life_idle (r : TickResult unit) (rs : list (TickResult unit)) :
    countFanOuts r.(tick_trace) = 0%nat ->
    r.(tick_globals).(done) = true ->
    Lifetime true rs -> Lifetime true (r :: rs)
| Life_poll (r : TickResult unit) (rs : list (TickResult unit)) :
    countFanOuts r.(tick_trace) = 0%nat ->
    r.(tick_globals).(done) = false ->
    Lifetime false rs -> Lifetime false (r :: rs)
| Life_fire (r : TickResult unit) (rs : list (TickResult unit)) :
    countFanOuts r.(tick_trace) = 1%nat ->
    r.(tick_globals).(done) = true ->
    Lifetime true rs -> Lifetime false (r :: rs).

(** The ticks the process itself makes: polls that each ask for the next
    one, then at most one tick that fires and asks for nothing. *)
Inductive ProcShape : list (TickResult unit) -> Prop :=
| PS_end : ProcShape []
| PS_poll (r : TickResult unit) (rs : list (TickResult unit)) :
    countFanOuts r.(tick_trace) = 0%nat ->
    r.(tick_globals).(done) = false ->
    reschedules r.(tick_trace) = true ->
    ProcShape rs -> ProcShape (r :: rs)
| PS_fire (r : TickResult unit) :
    countFanOuts r.(tick_trace) = 1%nat ->
    r.(tick_globals).(done) = true ->
    reschedules r.(tick_trace) = false ->
    ProcShape [r].

Definition isIssued {E} (o : Obs E) : bool :=
  match o with
  | Issued _ => true
  | Acted _ => false
  end.

(** The requests of a trace, in the order they were sent. *)
Definition requestsOf {E} (tr : list (Obs E)) : list (Obs E) := List.filter isIssued tr.

(** The requests a swap for [mint] is to send when its first request is
    answered by the first of [os], its second by the second and so on: the
    quote for [mint]; then, the quote having been answered by a response
    that is not refused, the build for that response; then, the build having
    been answered by a response that is not refused and from whose
    [swapTransaction] step 3 made a signed transaction, the submission of
    that transaction; then, the submission having returned a signature, the
    blockhash read; then, the read having returned, the confirmation of
    that signature against that blockhash.  A blank address sends
    nothing. *)
Definition answeredRequests (mint : jsstring) (os : list (Oracle Net)) : list (Obs Net) :=
  if forallb isWhiteSpace mint then [] else
  Issued (quoteRequest mint) ::
  match os with
  | [] => []
  | o1 :: os1 =>
  match o1 _ (quoteRequest mint) with
  | Throws _ => []
  | Returns q =>
  if refused q then [] else
  Issued (buildRequest q) ::
  match os1 with
  | [] => []
  | o2 :: os2 =>
  match o2 _ (buildRequest q) with
  | Throws _ => []
  | Returns s =>
  if refused s then [] else
  if negb (truthy (getProp (str "swapTransaction") s)) then [] else
  match signedTransaction (getProp (str "swapTransaction") s) with
  | Throws _ => []
  | Returns raw =>
  Issued (submitRequest raw) ::
  match os2 with
  | [] => []
  | o3 :: os3 =>
  match o3 _ (submitRequest raw) with
  | Throws _ => []
  | Returns txid =>
  Issued GetLatestBlockhash ::
  match os3 with
  | [] => []
  | o4 :: _ =>
  match o4 _ GetLatestBlockhash with
  | Throws _ => []
  | Returns latest => [Issued (confirmRequest latest txid)]
  end end end end end end end end end.

(** The console calls and other effects of a trace, in order. *)
Definition actsOf {E} (tr : list (Obs E)) : list Act :=
  flat_map (fun o => match o with Acted a => [a] | Issued _ => [] end) tr.

(** Along every path, the effects performed so far ([acc], then those of the
    path) satisfy [W] wherever the flow awaits, [P] where it returns and [Q]
    where it throws. *)
Inductive PathActs {E R} (P W : list Act -> Prop) (Q : list Act -> Exn -> Prop)
  : list Act -> Proc E R -> Prop :=
| PA_Ret (acc : list Act) (r : R) : P acc -> PathActs P W Q acc (Ret r)
| PA_Throw (acc : list Act) (e : Exn) : Q acc e -> PathActs P W Q acc (Throw e)
| PA_Do (acc : list Act) (a : Act) (k : Proc E R) :
    PathActs P W Q (acc ++ [a]) k -> PathActs P W Q acc (Do a k)
| PA_Await (acc : list Act) (X : Type) (req : E X) (k : Outcome X -> Proc E R) :
    W acc -> (forall o, PathActs P W Q acc (k o)) -> PathActs P W Q acc (Await req k).

(** The same for a flow that has stopped: at its end, or at a request
    already sent. *)
Definition Stopped {E R} (P W : list Act -> Prop) (Q : list Act -> Exn -> Prop)
           (acc : list Act) (p : Proc E R) : Prop :=
  match p with
  | Ret _ => P acc
  | Throw e => Q acc e
  | Do _ _ => False
  | Await _ k => W acc /\ forall o, PathActs P W Q acc (k o)
  end.

(** The report that ends a swap: success with the explorer link, the
    transaction's error, or the failure caught on line 157. *)
Definition isReport (acts : list Act) : Prop :=
  (exists txid,
     acts = [ConsoleLog [Val (JStr (str "Swap successful!"))];
             ConsoleLog [Val (JStr (str "View on Solscan: https://solscan.io/tx/" ++ txid))]]) \/
  (exists err, acts = [ConsoleError [Val (JStr (str "Transaction error:")); Val err]]) \/
  (exists e, acts = [swapFailed e]).




Definition isSwapEvent (o : PollObs) : bool :=
  match o with
  | Sub _ _ => true
  | Own _ => false
  end.

Definition isFeedRequest (o : PollObs) : bool :=
  match o with
  | Own (Issued (Fetch _)) => true
  | _ => false
  end.

(** The feed fails, or its snapshot shows no token for either target. *)
Definition staysQuiet (env : TickEnv) : bool :=
  match env.(fetched) SPORE_API_URL with
  | Throws _ => true
  | Returns resp =>
      match env.(parsed) resp with
      | Throws _ => true
      | Returns data =>
          negb (revealDetected (tokenOf AGENT_ABEL_ID (snd data).(json))
                               (tokenOf AGENT_TRINITY_ID (snd data).(json)))
      end
  end.

(** What a swap does before its first request settles. *)
Definition opening (token : jsstring) : list (Obs Net) :=
  if (0 <? List.length token)%nat
  then [Acted (attemptLog token); Issued (quoteRequest token)]
  else [Acted (invalidMint (Some token))].

(** The environments whose ticks come to happen: up to the first one that
    does not stay quiet. *)
Fixpoint upToReveal (envs : list TickEnv) : list TickEnv :=
  match envs with
  | [] => []
  | env :: rest => env :: (if staysQuiet env then upToReveal rest else [])
  end.


(* ================================================================== *)
(** ** Lemmas on [trim] *)

Lemma dropWhile_nil_iff {A} (f : A -> bool) (l : list A) :
  dropWhile f l = [] <-> forallb f l = true.
Proof.
  induction l as [|x l IH]; simpl.
  - tauto.
  - destruct (f x); simpl; [exact IH | split; discriminate].
Qed.

Lemma forallb_dropWhile {A} (f : A -> bool) (l : list A) :
  forallb f (dropWhile f l) = forallb f l.
Proof.
  induction l as [|x l IH]; simpl; [reflexivity|].
  destruct (f x) eqn:Hx; simpl; [exact IH | now rewrite Hx].
Qed.

Lemma forallb_rev {A} (f : A -> bool) (l : list A) :
  forallb f (rev l) = forallb f l.
Proof.
  induction l as [|x l IH]; simpl; [reflexivity|].
  rewrite forallb_app, IH; simpl. rewrite andb_true_r. apply andb_comm.
Qed.

Lemma dropWhile_suffix {A} (f : A -> bool) (l : list A) :
  exists pre, l = pre ++ dropWhile f l.
Proof.
  induction l as [|x l [pre IH]]; simpl.
  - now exists [].
  - destruct (f x).
    + exists (x :: pre). simpl. now f_equal.
    + now exists [].
Qed.

Lemma dropWhile_headStops {A} (f : A -> bool) (l : list A) :
  headStops f (dropWhile f l).
Proof.
  induction l as [|x l IH]; simpl; [exact I|].
  destruct (f x) eqn:Hx; simpl; [exact IH | exact Hx].
Qed.

Lemma dropWhile_fixed {A} (f : A -> bool) (l : list A) :
  headStops f l -> dropWhile f l = l.
Proof.
  destruct l as [|x l]; simpl; [reflexivity|]. now intros ->.
Qed.

Lemma trim_nil_iff (s : jsstring) :
  trim s = [] <-> forallb isWhiteSpace s = true.
Proof.
  unfold trim, trimEnd, trimStart.
  rewrite <- (forallb_dropWhile isWhiteSpace s), <- forallb_rev, <- dropWhile_nil_iff.
  split; intros H.
  - apply (f_equal (@rev N)) in H. now rewrite rev_involutive in H.
  - now rewrite H.
Qed.

Lemma trim_blank (s : jsstring) :
  forallb isWhiteSpace s = true -> trim s = [].
Proof. apply trim_nil_iff. Qed.

Lemma trim_nonblank (s : jsstring) :
  forallb isWhiteSpace s = false -> trim s <> [].
Proof.
  intros H Hn. apply trim_nil_iff in Hn. congruence.
Qed.

Lemma trim_idempotent (s : jsstring) : trim (trim s) = trim s.
Proof.
  unfold trim, trimEnd, trimStart.
  set (a := dropWhile isWhiteSpace s).
  set (b := dropWhile isWhiteSpace (rev a)).
  assert (Ha : headStops isWhiteSpace a) by apply dropWhile_headStops.
  assert (Hb : headStops isWhiteSpace b) by apply dropWhile_headStops.
  assert (Hrb : headStops isWhiteSpace (rev b)).
  { destruct (dropWhile_suffix isWhiteSpace (rev a)) as [pre Hpre].
    fold b in Hpre.
    apply (f_equal (@rev N)) in Hpre.
    rewrite rev_involutive, rev_app_distr in Hpre.
    destruct (rev b) as [|y l]; [exact I|].
    rewrite Hpre in Ha. exact Ha. }
  rewrite (dropWhile_fixed _ _ Hrb), rev_involutive.
  now rewrite (dropWhile_fixed _ _ Hb).
Qed.

Lemma length_pos_iff {A} (l : list A) : (0 <? List.length l)%nat = true <-> l <> [].
Proof.
  destruct l; simpl; split; intros H; try reflexivity; try discriminate; congruence.
Qed.

(* ================================================================== *)
(** ** Lemmas on detection *)

Lemma findAgent_first (target : Z) (agents : list Agent) (a : Agent) :
  findAgent target agents = Some a <->
  exists pre post,
    agents = pre ++ a :: post /\
    (forall x, In x pre -> x.(id) <> target) /\
    a.(id) = target.
Proof.
  unfold findAgent. split.
  - induction agents as [|x l IH]; simpl; [discriminate|].
    destruct (Z.eqb_spec x.(id) target) as [Heq|Hne].
    + intros [= ->]. exists [], l. repeat split; auto.
    + intros H. destruct (IH H) as (pre & post & -> & Hpre & Ha).
      exists (x :: pre), post. repeat split; auto.
      intros y [<-|Hy]; auto.
  - intros (pre & post & -> & Hpre & Ha).
    induction pre as [|x pre IH]; simpl.
    + apply Z.eqb_eq in Ha. now rewrite Ha.
    + destruct (Z.eqb_spec x.(id) target) as [Heq|Hne].
      * exfalso. apply (Hpre x); simpl; auto.
      * apply IH. intros y Hy. apply Hpre. now right.
Qed.

Lemma findAgent_none (target : Z) (agents : list Agent) :
  findAgent target agents = None <->
  forall x, In x agents -> x.(id) <> target.
Proof.
  unfold findAgent. split.
  - intros H x Hx Heq. apply (find_none _ _ H) in Hx.
    apply Z.eqb_neq in Hx. contradiction.
  - intros H. induction agents as [|x l IH]; simpl; [reflexivity|].
    destruct (Z.eqb_spec x.(id) target) as [Heq|Hne].
    + exfalso. apply (H x); simpl; auto.
    + apply IH. intros y Hy. apply H. now right.
Qed.

(* ================================================================== *)
(** ** Lemmas on flows *)

Lemma tryCatch_never_rejects {E R} (p : Proc E R) (h : Exn -> Proc E R) :
  (forall e, NeverRejects (h e)) -> NeverRejects (tryCatch p h).
Proof.
  intros Hh. induction p as [r|e|a k IH|X req k IH]; simpl.
  - constructor.
  - apply Hh.
  - constructor. exact IH.
  - constructor. intros o. apply IH.
Qed.

Lemma start_never_rejects {E R} (p : Proc E R) :
  NeverRejects p -> NeverRejects (snd (start p)).
Proof.
  induction 1 as [r|a k Hk IH|X req k Hk IH]; simpl.
  - constructor.
  - destruct (start k) as [tr p']. exact IH.
  - constructor. exact Hk.
Qed.

Lemma settle_never_rejects {E R} (o : Oracle E) (p : Proc E R) :
  NeverRejects p -> NeverRejects (snd (settle o p)).
Proof.
  intros H. destruct H as [r|a k Hk|X req k Hk]; simpl.
  - constructor.
  - constructor. exact Hk.
  - apply start_never_rejects, Hk.
Qed.

Lemma resume_never_rejects {E R} (os : list (Oracle E)) (p : Proc E R) :
  NeverRejects p -> NeverRejects (snd (resume os p)).
Proof.
  revert p. induction os as [|o os IH]; intros p H; simpl; [exact H|].
  pose proof (settle_never_rejects o H) as H1.
  destruct (settle o p) as [tr p']. simpl in H1.
  specialize (IH p' H1). destruct (resume os p') as [tr' p'']. exact IH.
Qed.

Lemma runSeq_never_rejects {E R} (os : list (Oracle E)) (p : Proc E R) :
  NeverRejects p -> NeverRejects (snd (runSeq os p)).
Proof.
  intros H. unfold runSeq.
  pose proof (start_never_rejects H) as H1.
  destruct (start p) as [tr p']. simpl in H1.
  pose proof (resume_never_rejects os H1) as H2.
  destruct (resume os p') as [tr' p'']. exact H2.
Qed.


(** The guard of [buyTokenWithJupiter]. *)
Lemma buy_blank (mint : option jsstring) :
  isBlank mint = true ->
  buyTokenWithJupiter mint = act (invalidMint mint).
Proof.
  unfold buyTokenWithJupiter, isBlank, invalidMint.
  destruct mint as [m|]; [|reflexivity].
  intros H. rewrite (trim_blank _ H). simpl. now rewrite orb_true_r.
Qed.

Lemma buy_nonblank (m : jsstring) :
  forallb isWhiteSpace m = false ->
  buyTokenWithJupiter (Some m) = tryCatch (swapSteps m) (fun error => act (swapFailed error)).
Proof.
  intros H. unfold buyTokenWithJupiter.
  pose proof (trim_nonblank _ H) as Ht.
  destruct m as [|c m]; [discriminate|].
  destruct (trim (c :: m)) as [|c' t'] eqn:Et; [congruence|].
  reflexivity.
Qed.

Lemma buy_never_rejects (mint : option jsstring) :
  NeverRejects (buyTokenWithJupiter mint).
Proof.
  unfold buyTokenWithJupiter.
  destruct (_ || _).
  - repeat constructor.
  - apply tryCatch_never_rejects. intros e. repeat constructor.
Qed.

Lemma AwaitsAtMost_le {E R} (n m : nat) (p : Proc E R) :
  AwaitsAtMost n p -> (n <= m)%nat -> AwaitsAtMost m p.
Proof.
  intros H. revert m.
  induction H as [n r|n e|n a k Hk IH|n X req k Hk IH]; intros m Hle.
  - constructor.
  - constructor.
  - constructor. now apply IH.
  - destruct m as [|m]; [lia|]. constructor. intros o. apply IH. lia.
Qed.

Lemma tryCatch_awaits {E R} (n : nat) (p : Proc E R) (h : Exn -> Proc E R) :
  AwaitsAtMost n p -> (forall e, AwaitsAtMost 0 (h e)) -> AwaitsAtMost n (tryCatch p h).
Proof.
  intros H Hh.
  induction H as [n r|n e|n a k Hk IH|n X req k Hk IH]; simpl.
  - constructor.
  - apply AwaitsAtMost_le with (n := 0%nat); [apply Hh | lia].
  - constructor. exact IH.
  - constructor. intros o. apply IH.
Qed.

Lemma start_awaits {E R} (n : nat) (p : Proc E R) :
  AwaitsAtMost n p -> AwaitsAtMost n (snd (start p)).
Proof.
  induction 1 as [n r|n e|n a k Hk IH|n X req k Hk IH]; simpl.
  - constructor.
  - constructor.
  - destruct (start k) as [tr p']. exact IH.
  - constructor. exact Hk.
Qed.

Lemma start_not_do {E R} (p : Proc E R) : isDo (snd (start p)) = false.
Proof.
  induction p as [r|e|a k IH|X req k IH]; simpl; try reflexivity.
  destruct (start k) as [tr p']. exact IH.
Qed.

Lemma settle_not_do {E R} (o : Oracle E) (p : Proc E R) :
  isDo p = false -> isDo (snd (settle o p)) = false.
Proof.
  destruct p as [r|e|a k|X req k]; simpl; intros H; try reflexivity; try discriminate.
  apply start_not_do.
Qed.

Lemma resume_ret {E R} (os : list (Oracle E)) (r : R) :
  resume os (Ret r : Proc E R) = ([], Ret r).
Proof.
  induction os as [|o os IH]; simpl; [reflexivity|]. now rewrite IH.
Qed.

(** With as many answers as the flow can await, it is no longer awaiting. *)
Lemma resume_finishes {E R} (os : list (Oracle E)) :
  forall (n : nat) (p : Proc E R),
    isDo p = false -> AwaitsAtMost n p -> (n <= List.length os)%nat ->
    isAwait (snd (resume os p)) = false /\ isDo (snd (resume os p)) = false.
Proof.
  induction os as [|o os IH]; intros n p Hd Ha Hn; simpl in *.
  - destruct Ha; simpl in *; try (split; reflexivity); try discriminate. lia.
  - pose proof (settle_not_do o p Hd) as Hd'.
    destruct Ha as [n r|n e|n a k Hk|n X req k Hk]; simpl in *.
    + destruct (IH 0%nat (Ret r : Proc E R) eq_refl (AM_Ret 0 r) (Nat.le_0_l _)) as [H1 H2].
      destruct (resume os (Ret r)) as [tr' p'']. auto.
    + destruct (IH 0%nat (Throw e : Proc E R) eq_refl (AM_Throw 0 e) (Nat.le_0_l _)) as [H1 H2].
      destruct (resume os (Throw e)) as [tr' p'']. auto.
    + discriminate.
    + pose proof (start_awaits (Hk (o X req))) as Hs.
      destruct (start (k (o X req))) as [tr p'] eqn:Es. simpl in *.
      assert (Hle : (n <= List.length os)%nat) by lia.
      destruct (IH n p' Hd' Hs Hle) as [H1 H2].
      destruct (resume os p') as [tr' p'']. auto.
Qed.

Lemma runSeq_resolves {E} (os : list (Oracle E)) (n : nat) (p : Proc E unit) :
  NeverRejects p -> AwaitsAtMost n p -> (n <= List.length os)%nat ->
  snd (runSeq os p) = Ret tt.
Proof.
  intros Hnr Ha Hn.
  pose proof (runSeq_never_rejects os Hnr) as Hr.
  unfold runSeq in *.
  pose proof (start_awaits Ha) as Hs.
  pose proof (start_not_do p) as Hd.
  destruct (start p) as [tr p']. simpl in *.
  destruct (resume_finishes os Hd Hs Hn) as [H1 H2].
  destruct (resume os p') as [tr' p'']. simpl in *.
  destruct Hr as [[]|a k Hk|X req k Hk]; simpl in *; try discriminate. reflexivity.
Qed.

Lemma buy_blank_run (mint : option jsstring) (os : list (Oracle Net)) :
  isBlank mint = true ->
  runSeq os (buyTokenWithJupiter mint) = ([Acted (invalidMint mint)], Ret tt).
Proof.
  intros H. rewrite (buy_blank _ H). unfold runSeq. simpl. now rewrite resume_ret.
Qed.

(** *** The join of two flows that never reject *)

Lemma project_app {E} (s : Side) (a b : list (Side * Obs E)) :
  project s (a ++ b) = project s a ++ project s b.
Proof. unfold project. now rewrite filter_app, map_app. Qed.

Lemma project_tag_same {E} (s : Side) (tr : list (Obs E)) :
  project s (tag s tr) = tr.
Proof.
  unfold project, tag. induction tr as [|o tr IH]; simpl; [reflexivity|].
  destruct s; simpl; now rewrite IH.
Qed.

Lemma project_tag_other {E} (s t : Side) (tr : list (Obs E)) :
  Side_eqb t s = false -> project s (tag t tr) = [].
Proof.
  intros H. unfold project, tag. induction tr as [|o tr IH]; simpl; [reflexivity|].
  now rewrite H.
Qed.

Lemma joinLoop_independent {E} (sched : list (Settle E)) :
  forall p q : Proc E unit,
    NeverRejects p -> NeverRejects q ->
    let '(tr, st, _) := joinLoop sched p q in
    project First tr = fst (resume (answersTo First sched) p) /\
    project Second tr = fst (resume (answersTo Second sched) q) /\
    st = joinStatus (snd (resume (answersTo First sched) p))
                    (snd (resume (answersTo Second sched) q)).
Proof.
  induction sched as [|s rest IH]; intros p q Hp Hq.
  - simpl. destruct Hp, Hq; simpl; auto.
  - assert (Hstep :
      let '(tr, st, _) :=
        match s.(side) with
        | First =>
            let (tr, p') := settle s.(answer) p in
            let '(tr', st, rest') := joinLoop rest p' q in
            (tag First tr ++ tr', st, rest')
        | Second =>
            let (tr, q') := settle s.(answer) q in
            let '(tr', st, rest') := joinLoop rest p q' in
            (tag Second tr ++ tr', st, rest')
        end in
      project First tr = fst (resume (answersTo First (s :: rest)) p) /\
      project Second tr = fst (resume (answersTo Second (s :: rest)) q) /\
      st = joinStatus (snd (resume (answersTo First (s :: rest)) p))
                      (snd (resume (answersTo Second (s :: rest)) q))).
    { unfold answersTo. simpl. destruct s as [sd o]. simpl. destruct sd; simpl.
      - pose proof (settle_never_rejects o Hp) as Hp'.
        destruct (settle o p) as [tr p']. simpl in Hp'.
        specialize (IH p' q Hp' Hq).
        destruct (joinLoop rest p' q) as [[tr' st] rest'].
        destruct IH as (I1 & I2 & I3). unfold answersTo in *.
        destruct (resume _ p') as [t1 p1]. simpl in *.
        repeat (rewrite project_app || rewrite project_tag_same
                || rewrite project_tag_other by reflexivity).
        simpl. rewrite I1, I2. auto.
      - pose proof (settle_never_rejects o Hq) as Hq'.
        destruct (settle o q) as [tr q']. simpl in Hq'.
        specialize (IH p q' Hp Hq').
        destruct (joinLoop rest p q') as [[tr' st] rest'].
        destruct IH as (I1 & I2 & I3). unfold answersTo in *.
        destruct (resume _ q') as [t1 q1]. simpl in *.
        repeat (rewrite project_app || rewrite project_tag_same
                || rewrite project_tag_other by reflexivity).
        simpl. rewrite I1, I2. auto. }
    destruct Hp as [[]|a k Hk|X req k Hk], Hq as [[]|a' k' Hk'|X' req' k' Hk'];
      try exact Hstep.
    simpl. rewrite !resume_ret. simpl. auto.
Qed.

Lemma join_independent {E} (sched : list (Settle E)) (p q : Proc E unit) :
  NeverRejects p -> NeverRejects q ->
  let '(tr, st, _) := join sched p q in
  project First tr = fst (runSeq (answersTo First sched) p) /\
  project Second tr = fst (runSeq (answersTo Second sched) q) /\
  st = joinStatus (snd (runSeq (answersTo First sched) p))
                  (snd (runSeq (answersTo Second sched) q)).
Proof.
  intros Hp Hq. unfold join, runSeq.
  pose proof (start_never_rejects Hp) as Hp1.
  pose proof (start_never_rejects Hq) as Hq1.
  destruct (start p) as [tr1 p1], (start q) as [tr2 q1]. simpl in *.
  pose proof (joinLoop_independent sched Hp1 Hq1) as H.
  destruct (joinLoop sched p1 q1) as [[tr st] rest].
  destruct H as (H1 & H2 & H3).
  destruct (resume (answersTo First sched) p1) as [t1 p2].
  destruct (resume (answersTo Second sched) q1) as [t2 q2]. simpl in *.
  repeat (rewrite project_app || rewrite project_tag_same
          || rewrite project_tag_other by reflexivity).
  simpl. rewrite H1, H2. auto.
Qed.

(** *** The order of a swap's requests *)

Lemma handleTxConfirmation_in_order (txid : jsstring) (c : Confirmation) (ks : list ReqKind) :
  InOrder ks (handleTxConfirmation txid c : Flow).
Proof. unfold handleTxConfirmation. walk. Qed.

Lemma swapSteps_in_order (m : jsstring) :
  InOrder [KQuote; KBuild; KSubmit; KBlockhash; KConfirm] (swapSteps m).
Proof.
  unfold swapSteps. walk; apply handleTxConfirmation_in_order.
Qed.

Lemma swapSteps_quiet (m : jsstring) : Quiet (swapSteps m).
Proof. unfold swapSteps, handleTxConfirmation. walk. Qed.

Lemma tryCatch_in_order {R} (ks : list ReqKind) (p : Proc Net R) (h : Exn -> Proc Net R) :
  InOrder ks p -> (forall e ks', InOrder ks' (h e)) -> InOrder ks (tryCatch p h).
Proof.
  intros H Hh. induction H as [ks r|ks e|ks a k Hk IH|kd ks X req k Hkd Hk IH]; simpl.
  - constructor.
  - apply Hh.
  - constructor. exact IH.
  - constructor; [exact Hkd|]. intros o. apply IH.
Qed.

Lemma tryCatch_quiet {E R} (p : Proc E R) (h : Exn -> Proc E R) :
  Quiet p -> (forall e, Quiet (h e)) -> Quiet (tryCatch p h).
Proof.
  intros H Hh. induction H as [r|e|a k Ha Hk IH|X req k Hk IH]; simpl.
  - constructor.
  - apply Hh.
  - constructor; [exact Ha | exact IH].
  - constructor. intros o. apply IH.
Qed.

Lemma buy_in_order (mint : option jsstring) :
  InOrder [KQuote; KBuild; KSubmit; KBlockhash; KConfirm] (buyTokenWithJupiter mint).
Proof.
  unfold buyTokenWithJupiter. destruct (_ || _).
  - repeat constructor.
  - apply tryCatch_in_order; [apply swapSteps_in_order|].
    intros e ks'. repeat constructor.
Qed.

Lemma buy_quiet (mint : option jsstring) : Quiet (buyTokenWithJupiter mint).
Proof.
  unfold buyTokenWithJupiter. destruct (_ || _).
  - repeat constructor.
  - apply tryCatch_quiet; [apply swapSteps_quiet|].
    intros e. repeat constructor.
Qed.

Lemma in_order_awaits {R} (ks : list ReqKind) (p : Proc Net R) :
  InOrder ks p -> AwaitsAtMost (List.length ks) p.
Proof.
  induction 1; simpl; constructor; auto.
Qed.

Lemma buy_awaits (mint : option jsstring) :
  AwaitsAtMost 5 (buyTokenWithJupiter mint).
Proof. exact (in_order_awaits (buy_in_order mint)). Qed.

(** *** Runs keep the order of requests *)

Lemma start_in_order {R} (ks : list ReqKind) (p : Proc Net R) :
  InOrder ks p ->
  exists rest, ks = kindsOf (fst (start p)) ++ rest /\ ThenInOrder rest (snd (start p)).
Proof.
  induction 1 as [ks r|ks e|ks a k Hk IH|kd ks X req k Hkd Hk IH]; simpl.
  - exists ks. split; [reflexivity | exact I].
  - exists ks. split; [reflexivity | exact I].
  - destruct IH as (rest & -> & Ht). destruct (start k) as [tr p']. simpl in *.
    exists rest. split; [reflexivity | exact Ht].
  - exists ks. subst kd. split; [reflexivity | exact Hk].
Qed.

Lemma settle_in_order {R} (o : Oracle Net) (ks : list ReqKind) (p : Proc Net R) :
  ThenInOrder ks p ->
  exists rest, ks = kindsOf (fst (settle o p)) ++ rest /\ ThenInOrder rest (snd (settle o p)).
Proof.
  destruct p as [r|e|a k|X req k]; simpl; intros H.
  - exists ks. split; [reflexivity | exact I].
  - exists ks. split; [reflexivity | exact I].
  - contradiction.
  - apply start_in_order, H.
Qed.

Lemma resume_in_order {R} (os : list (Oracle Net)) :
  forall (ks : list ReqKind) (p : Proc Net R),
    ThenInOrder ks p ->
    exists rest, ks = kindsOf (fst (resume os p)) ++ rest.
Proof.
  induction os as [|o os IH]; intros ks p H; simpl.
  - now exists ks.
  - destruct (settle_in_order o ks p H) as (rest & -> & Ht).
    destruct (settle o p) as [tr p']. simpl in *.
    destruct (IH rest p' Ht) as (rest' & ->).
    destruct (resume os p') as [tr' p'']. simpl.
    exists rest'. unfold kindsOf. now rewrite flat_map_app, app_assoc.
Qed.

Lemma runSeq_in_order {R} (os : list (Oracle Net)) (ks : list ReqKind) (p : Proc Net R) :
  InOrder ks p ->
  exists rest, ks = kindsOf (fst (runSeq os p)) ++ rest.
Proof.
  intros H. unfold runSeq.
  destruct (start_in_order H) as (rest & -> & Ht).
  destruct (start p) as [tr p']. simpl in *.
  destruct (resume_in_order os rest p' Ht) as (rest' & ->).
  destruct (resume os p') as [tr' p'']. simpl.
  exists rest'. unfold kindsOf. now rewrite flat_map_app, app_assoc.
Qed.

(** *** Quiet flows leave the globals alone *)

Lemma start_quiet {E R} (p : Proc E R) :
  Quiet p -> Forall quietObs (fst (start p)) /\ Quiet (snd (start p)).
Proof.
  induction 1 as [r|e|a k Ha Hk IH|X req k Hk IH]; simpl.
  - split; constructor.
  - split; constructor.
  - destruct (start k) as [tr p']. simpl in *. destruct IH as [I1 I2].
    split; [constructor; assumption | exact I2].
  - split; [repeat constructor | constructor; exact Hk].
Qed.

Lemma settle_quiet {E R} (o : Oracle E) (p : Proc E R) :
  Quiet p -> Forall quietObs (fst (settle o p)) /\ Quiet (snd (settle o p)).
Proof.
  intros H. destruct H as [r|e|a k Ha Hk|X req k Hk]; simpl.
  - split; constructor.
  - split; constructor.
  - split; [constructor | constructor; assumption].
  - apply start_quiet, Hk.
Qed.

Lemma tag_quiet {E} (s : Side) (tr : list (Obs E)) :
  Forall quietObs tr -> Forall (fun x => quietObs (snd x)) (tag s tr).
Proof.
  unfold tag. induction 1; simpl; constructor; assumption.
Qed.

Lemma joinLoop_quiet {E} (sched : list (Settle E)) :
  forall p q : Proc E unit,
    Quiet p -> Quiet q ->
    Forall (fun x => quietObs (snd x)) (fst (fst (joinLoop sched p q))).
Proof.
  induction sched as [|s rest IH]; intros p q Hp Hq.
  - simpl. destruct (joinStatus p q); constructor.
  - simpl. destruct (joinStatus p q); try constructor.
    destruct s as [sd o]. simpl. destruct sd.
    + destruct (settle_quiet o Hp) as [H1 H2].
      destruct (settle o p) as [tr p']. simpl in *.
      specialize (IH p' q H2 Hq).
      destruct (joinLoop rest p' q) as [[tr' st] rest']. simpl in *.
      apply Forall_app. split; [apply tag_quiet, H1 | exact IH].
    + destruct (settle_quiet o Hq) as [H1 H2].
      destruct (settle o q) as [tr q']. simpl in *.
      specialize (IH p q' Hp H2).
      destruct (joinLoop rest p q') as [[tr' st] rest']. simpl in *.
      apply Forall_app. split; [apply tag_quiet, H1 | exact IH].
Qed.

Lemma join_quiet {E} (sched : list (Settle E)) (p q : Proc E unit) :
  Quiet p -> Quiet q ->
  Forall (fun x => quietObs (snd x)) (fst (fst (join sched p q))).
Proof.
  intros Hp Hq. unfold join.
  destruct (start_quiet Hp) as [P1 P2], (start_quiet Hq) as [Q1 Q2].
  destruct (start p) as [tr1 p1], (start q) as [tr2 q1]. simpl in *.
  pose proof (joinLoop_quiet sched P2 Q2) as H.
  destruct (joinLoop sched p1 q1) as [[tr st] rest]. simpl in *.
  apply Forall_app. split; [apply tag_quiet, P1|].
  apply Forall_app. split; [apply tag_quiet, Q1 | exact H].
Qed.

Lemma perform_quiet {E} (tr : list (Side * Obs E)) (g : Globals) :
  Forall (fun x => quietObs (snd x)) tr ->
  fold_left (fun g x => performObs (snd x) g) tr g = g.
Proof.
  intros H. revert g. induction H as [|[s o] tr Ho Htr IH]; intros g; simpl.
  - reflexivity.
  - rewrite <- (IH g) at 2. f_equal.
    destruct o as [a|X req]; simpl in *; [|reflexivity].
    destruct a; simpl in *; try discriminate; reflexivity.
Qed.

Lemma joinStatus_never_rejects {E} (p q : Proc E unit) :
  NeverRejects p -> NeverRejects q ->
  joinStatus p q = if isRet p && isRet q then AllResolved else Waiting p q.
Proof.
  intros [[]|a k Hk|X req k Hk] [[]|a' k' Hk'|X' req' k' Hk']; reflexivity.
Qed.

(** The join of the two swaps: never rejected, resolved exactly when both
    sub-flows have returned. *)
Lemma join_buys (sched : list (Settle Net)) (m1 m2 : option jsstring) :
  let '(tr, st, _) := join sched (buyTokenWithJupiter m1) (buyTokenWithJupiter m2) in
  let f1 := snd (runSeq (answersTo First sched) (buyTokenWithJupiter m1)) in
  let f2 := snd (runSeq (answersTo Second sched) (buyTokenWithJupiter m2)) in
  project First tr = fst (runSeq (answersTo First sched) (buyTokenWithJupiter m1)) /\
  project Second tr = fst (runSeq (answersTo Second sched) (buyTokenWithJupiter m2)) /\
  st = (if isRet f1 && isRet f2 then AllResolved else Waiting f1 f2).
Proof.
  pose proof (join_independent sched (buy_never_rejects m1) (buy_never_rejects m2)) as H.
  destruct (join sched _ _) as [[tr st] rest].
  destruct H as (H1 & H2 & H3). repeat split; auto.
  rewrite H3. apply joinStatus_never_rejects; apply runSeq_never_rejects, buy_never_rejects.
Qed.

(** *** What one tick does *)

Lemma tick_done (env : TickEnv) (g : Globals) :
  g.(done) = true ->
  runTick env g =
    {| tick_trace := []; tick_status := Resolved tt; tick_globals := g; tick_detached := [] |}.
Proof. intros H. unfold runTick. now rewrite H. Qed.

Lemma tick_fetch_fails (env : TickEnv) (g : Globals) (e : Exn) :
  g.(done) = false ->
  env.(fetched) SPORE_API_URL = Throws e ->
  runTick env g =
    {| tick_trace := [Own (Issued (Fetch SPORE_API_URL));
                      Own (Acted (pollFailed e));
                      Own (Acted (SetTimeout POLL_INTERVAL_MS))];
       tick_status := Resolved tt;
       tick_globals := {| done := false; timers := g.(timers) ++ [POLL_INTERVAL_MS] |};
       tick_detached := [] |}.
Proof.
  intros Hd Hf. unfold runTick, pollSporeApi, pollSteps. rewrite Hd.
  tick_crunch. rewrite Hf. tick_crunch. now rewrite Hd.
Qed.

Lemma tick_parse_fails (env : TickEnv) (g : Globals) (resp : Response) (e : Exn) :
  g.(done) = false ->
  env.(fetched) SPORE_API_URL = Returns resp ->
  env.(parsed) resp = Throws e ->
  runTick env g =
    {| tick_trace := [Own (Issued (Fetch SPORE_API_URL));
                      Own (Issued (ResponseJson resp));
                      Own (Acted (pollFailed e));
                      Own (Acted (SetTimeout POLL_INTERVAL_MS))];
       tick_status := Resolved tt;
       tick_globals := {| done := false; timers := g.(timers) ++ [POLL_INTERVAL_MS] |};
       tick_detached := [] |}.
Proof.
  intros Hd Hf Hp. unfold runTick, pollSporeApi, pollSteps. rewrite Hd.
  tick_crunch. rewrite Hf. tick_crunch. rewrite Hp. tick_crunch. now rewrite Hd.
Qed.

Lemma tick_no_reveal (env : TickEnv) (g : Globals) (resp : Response) (data : SporeApiResponse) :
  g.(done) = false ->
  env.(fetched) SPORE_API_URL = Returns resp ->
  env.(parsed) resp = Returns data ->
  revealDetected (tokenOf AGENT_ABEL_ID (snd data).(json))
                 (tokenOf AGENT_TRINITY_ID (snd data).(json)) = false ->
  runTick env g =
    {| tick_trace := [Own (Issued (Fetch SPORE_API_URL));
                      Own (Issued (ResponseJson resp));
                      Own (Acted (SetTimeout POLL_INTERVAL_MS))];
       tick_status := Resolved tt;
       tick_globals := {| done := false; timers := g.(timers) ++ [POLL_INTERVAL_MS] |};
       tick_detached := [] |}.
Proof.
  intros Hd Hf Hp Hr. unfold runTick, pollSporeApi, pollSteps. rewrite Hd.
  tick_crunch. rewrite Hf. tick_crunch. rewrite Hp. tick_crunch.
  unfold tokenOf in Hr. rewrite Hr. tick_crunch. now rewrite Hd.
Qed.

Lemma tick_reveal (env : TickEnv) (g : Globals) (resp : Response) (data : SporeApiResponse) :
  g.(done) = false ->
  env.(fetched) SPORE_API_URL = Returns resp ->
  env.(parsed) resp = Returns data ->
  revealDetected (tokenOf AGENT_ABEL_ID (snd data).(json))
                 (tokenOf AGENT_TRINITY_ID (snd data).(json)) = true ->
  let abelToken := tokenOf AGENT_ABEL_ID (snd data).(json) in
  let trinityToken := tokenOf AGENT_TRINITY_ID (snd data).(json) in
  let abelBuy := buyTokenWithJupiter (Some abelToken) in
  let trinityBuy := buyTokenWithJupiter (Some trinityToken) in
  runTick env g =
    {| tick_trace :=
         Own (Issued (Fetch SPORE_API_URL)) ::
         Own (Issued (ResponseJson resp)) ::
         Own (Acted SetDone) ::
         Own (Acted (detectedLog abelToken trinityToken)) ::
         Own (Issued (PromiseAll abelBuy trinityBuy)) ::
         subTrace (fst (fst (join env.(schedule) abelBuy trinityBuy)));
       tick_status :=
         if isAllResolved (snd (fst (join env.(schedule) abelBuy trinityBuy)))
         then Resolved tt else Blocked;
       tick_globals := {| done := true; timers := g.(timers) |};
       tick_detached := [] |}.
Proof.
  intros Hd Hf Hp Hr abelToken trinityToken abelBuy trinityBuy.
  unfold runTick, pollSporeApi, pollSteps. rewrite Hd.
  tick_crunch. rewrite Hf. tick_crunch. rewrite Hp. tick_crunch.
  unfold tokenOf in Hr. rewrite Hr. tick_crunch.
  fold (tokenOf AGENT_ABEL_ID (json (snd data))).
  fold (tokenOf AGENT_TRINITY_ID (json (snd data))).
  fold abelToken trinityToken. fold abelBuy trinityBuy.
  pose proof (join_buys env.(schedule) (Some abelToken) (Some trinityToken)) as Hj.
  pose proof (join_quiet env.(schedule) (buy_quiet (Some abelToken))
                (buy_quiet (Some trinityToken))) as Hq.
  fold abelBuy trinityBuy in Hj, Hq.
  destruct (join (schedule env) abelBuy trinityBuy) as [[tr st] rest].
  simpl in Hq. rewrite (perform_quiet _ Hq).
  destruct Hj as (_ & _ & ->).
  destruct (isRet _ && isRet _); tick_crunch;
    unfold observed, afterJoin, detectedLog;
    cbn [tick_trace tick_status tick_globals tick_detached app];
    rewrite ?app_nil_r; reflexivity.
Qed.

Lemma filter_isFanOut_subTrace (tr : list (Side * Obs Net)) :
  List.filter isFanOut (subTrace tr) = [].
Proof.
  unfold subTrace. induction tr as [|x tr IH]; simpl; auto.
Qed.

(* ================================================================== *)
(** ** Detection *)

Lemma tokenOf_first (target : Z) (agents : list Agent) (a : Agent) :
  firstWithId target agents a -> tokenOf target agents = trimmedToken (Some a).
Proof.
  intros H. apply findAgent_first in H. unfold tokenOf. now rewrite H.
Qed.

Lemma nonempty_token_nonblank (target : Z) (agents : list Agent) :
  tokenOf target agents <> [] ->
  forallb isWhiteSpace (tokenOf target agents) = false.
Proof.
  unfold tokenOf, trimmedToken.
  destruct (findAgent target agents) as [a|]; [|congruence].
  destruct a.(tokenAddress) as [raw|]; [|congruence].
  intros H. destruct (forallb isWhiteSpace (trim raw)) eqn:E; [|reflexivity].
  apply trim_nil_iff in E. rewrite trim_idempotent in E. contradiction.
Qed.

(** C2 (amended): detection yields a revealed result for a target exactly
    when the snapshot holds an entity with that identifier and the first
    such entity in snapshot order, the one [find] returns, has a
    [tokenAddress] that is non-empty after trimming; the trimmed string is
    what goes on to the swap executor; [""] and ["   "] are not revealed,
    ["  Addr123  "] is revealed as ["Addr123"]; a snapshot with no such
    entity yields no reveal for that target.  The test the tick itself makes
    on line 193 is this one at the two configured targets: a tick that
    obtains the snapshot sets [done] and hands the two trimmed strings to
    [Promise.all] when entity 6 or entity 7 is revealed, and otherwise
    leaves [done] as it is and starts no swap. *)
Theorem reveal_detection_trims (target : Z) (agents : list Agent) :
  (revealed target agents = true <->
     exists a raw,
       firstWithId target agents a /\
       a.(tokenAddress) = Some raw /\
       trim raw <> [] /\
       tokenOf target agents = trim raw) /\
  ((forall x, In x agents -> x.(id) <> target) -> revealed target agents = false) /\
  (forall a,
     firstWithId target agents a ->
     (a.(tokenAddress) = Some (str "") -> revealed target agents = false) /\
     (a.(tokenAddress) = Some (str "   ") -> revealed target agents = false) /\
     (a.(tokenAddress) = Some (str "  Addr123  ") ->
        revealed target agents = true /\ tokenOf target agents = str "Addr123")) /\
  fst (start (buyTokenWithJupiter (Some (tokenOf target agents)))) =
    (if revealed target agents
     then [Acted (attemptLog (tokenOf target agents));
           Issued (quoteRequest (tokenOf target agents))]
     else [Acted (invalidMint (Some []))]) /\
  (forall (env : TickEnv) (g : Globals) (resp : Response) (data : SporeApiResponse),
     g.(done) = false ->
     env.(fetched) SPORE_API_URL = Returns resp ->
     env.(parsed) resp = Returns data ->
     (snd data).(json) = agents ->
     if revealed AGENT_ABEL_ID agents || revealed AGENT_TRINITY_ID agents
     then
       (runTick env g).(tick_globals).(done) = true /\
       List.filter isFanOut (runTick env g).(tick_trace) =
         [Own (Issued (PromiseAll
                         (buyTokenWithJupiter (Some (tokenOf AGENT_ABEL_ID agents)))
                         (buyTokenWithJupiter (Some (tokenOf AGENT_TRINITY_ID agents)))))]
     else
       (runTick env g).(tick_globals).(done) = false /\
       List.filter isFanOut (runTick env g).(tick_trace) = []).
Proof.
  split; [split|split; [|split; [|split]]].
  - unfold revealed. intros H. apply length_pos_iff in H.
    unfold tokenOf, trimmedToken in *.
    destruct (findAgent target agents) as [a|] eqn:Ef; [|congruence].
    destruct a.(tokenAddress) as [raw|] eqn:Et; [|congruence].
    exists a, raw. repeat split; auto. now apply findAgent_first.
  - unfold revealed. intros (a & raw & Hf & Ht & Hn & He).
    apply length_pos_iff. congruence.
  - unfold revealed. intros H. apply findAgent_none in H. unfold tokenOf. now rewrite H.
  - unfold revealed. intros a Ha. rewrite (tokenOf_first Ha). simpl.
    split; [|split]; intros ->; [reflexivity | reflexivity | split; reflexivity].
  - unfold revealed.
    destruct (0 <? List.length (tokenOf target agents))%nat eqn:E.
    + apply length_pos_iff in E.
      rewrite (buy_nonblank _ (nonempty_token_nonblank _ _ E)). reflexivity.
    + destruct (tokenOf target agents) as [|c t]; [reflexivity | discriminate].
  - intros env g resp data Hd Hf Hp <-.
    change (revealed AGENT_ABEL_ID (json (snd data))
            || revealed AGENT_TRINITY_ID (json (snd data)))
      with (revealDetected (tokenOf AGENT_ABEL_ID (json (snd data)))
                           (tokenOf AGENT_TRINITY_ID (json (snd data)))).
    destruct (revealDetected _ _) eqn:Hr.
    + rewrite (tick_reveal env g Hd Hf Hp Hr).
      cbn [tick_globals tick_trace done List.filter isFanOut].
      now rewrite filter_isFanOut_subTrace.
    + rewrite (tick_no_reveal env g Hd Hf Hp Hr). split; reflexivity.
Qed.

(** C10: when several entities of the snapshot carry a target's identifier,
    [find] takes the first in snapshot order: its [tokenAddress] alone
    decides whether the target counts as revealed and which address is
    bought, whatever the later duplicates hold. *)
Theorem duplicate_ids_first_wins (target : Z) (pre post : list Agent) (a : Agent) :
  (forall x, In x pre -> x.(id) <> target) ->
  a.(id) = target ->
  findAgent target (pre ++ a :: post) = Some a /\
  tokenOf target (pre ++ a :: post) = trimmedToken (Some a) /\
  (forall post', tokenOf target (pre ++ a :: post') = tokenOf target (pre ++ a :: post)) /\
  (forall post', revealed target (pre ++ a :: post') = revealed target (pre ++ a :: post)).
Proof.
  intros Hpre Ha.
  assert (F : forall l, findAgent target (pre ++ a :: l) = Some a).
  { intros l. apply findAgent_first. exists pre, l. auto. }
  unfold revealed, tokenOf. repeat split; intros; now rewrite ?F.
Qed.

(* ================================================================== *)
(** ** The swap executor *)

(** C5: for an absent, empty or white-space-only address the executor logs
    the diagnostic and returns: it raises nothing and sends no request. *)
Theorem blank_address_is_noop (mint : option jsstring) :
  isBlank mint = true ->
  buyTokenWithJupiter mint = Do (invalidMint mint) (Ret tt) /\
  (forall os : list (Oracle Net),
     runSeq os (buyTokenWithJupiter mint) = ([Acted (invalidMint mint)], Ret tt)) /\
  kindsOf (fst (start (buyTokenWithJupiter mint))) = [].
Proof.
  intros H. repeat split.
  - apply buy_blank, H.
  - intros os. apply buy_blank_run, H.
  - now rewrite (buy_blank _ H).
Qed.

(** C7: the confirmation interpreter awaits nothing and never throws; when
    the confirmation's [err] is [null] or absent it logs success and the
    explorer link of the transaction, otherwise it logs the failure with the
    raw [err]. *)
Theorem confirmation_interpreter_total (txid : jsstring) (c : Confirmation) :
  (c.(value_err) = JNull \/ c.(value_err) = JUndefined ->
     handleTxConfirmation txid c =
       (Do (ConsoleLog [Val (JStr (str "Swap successful!"))])
          (Do (ConsoleLog [Val (JStr (str "View on Solscan: https://solscan.io/tx/" ++ txid))])
             (Ret tt)) : Flow)) /\
  (c.(value_err) <> JNull -> c.(value_err) <> JUndefined ->
     handleTxConfirmation txid c =
       (Do (ConsoleError [Val (JStr (str "Transaction error:")); Val c.(value_err)])
          (Ret tt) : Flow)) /\
  NeverRejects (handleTxConfirmation txid c : Flow) /\
  AwaitsAtMost 0 (handleTxConfirmation txid c : Flow) /\
  (forall os : list (Oracle Net),
     snd (runSeq os (handleTxConfirmation txid c : Flow)) = Ret tt).
Proof.
  unfold handleTxConfirmation. repeat split.
  - intros [H|H]; rewrite H; reflexivity.
  - intros H1 H2. destruct c.(value_err); try congruence; reflexivity.
  - destruct (looseEqNull _); repeat constructor.
  - destruct (looseEqNull _); repeat constructor.
  - intros os. unfold runSeq.
    destruct (looseEqNull _); simpl; now rewrite resume_ret.
Qed.


(** C6 (amended): for a non-blank address the executor logs the attempt and
    sends the quote request for 1_000_000_000 lamports at 5000 basis points;
    its requests are, in this order and as far as the run goes, quote, build,
    submit, latest blockhash, confirm; it fails with the quote error when the
    quote call throws, or the quote response is falsy or carries a truthy
    [error] field, and otherwise goes on to the build request; when every
    step succeeds the signed transaction is submitted with preflight skipped
    and [maxRetries] 2, and confirmed for the signature the submission
    returned. *)
Theorem swap_sequence (m : jsstring) :
  forallb isWhiteSpace m = false ->
  fst (start (buyTokenWithJupiter (Some m))) =
    [Acted (attemptLog m); Issued (quoteRequest m)] /\
  (forall os : list (Oracle Net),
     exists rest,
       [KQuote; KBuild; KSubmit; KBlockhash; KConfirm] =
       kindsOf (fst (runSeq os (buyTokenWithJupiter (Some m)))) ++ rest) /\
  (forall (o : Oracle Net) (os : list (Oracle Net)) (e : Exn),
     o _ (quoteRequest m) = Throws e ->
     runSeq (o :: os) (buyTokenWithJupiter (Some m)) =
       ([Acted (attemptLog m); Issued (quoteRequest m); Acted (swapFailed e)], Ret tt)) /\
  (forall (o : Oracle Net) (os : list (Oracle Net)) (q : JsValue),
     o _ (quoteRequest m) = Returns q ->
     truthy q = false \/ truthy (getProp (str "error") q) = true ->
     runSeq (o :: os) (buyTokenWithJupiter (Some m)) =
       ([Acted (attemptLog m); Issued (quoteRequest m);
         Acted (swapFailed (quoteError q))], Ret tt)) /\
  (forall (o : Oracle Net) (q : JsValue),
     o _ (quoteRequest m) = Returns q ->
     truthy q = true ->
     truthy (getProp (str "error") q) = false ->
     fst (runSeq [o] (buyTokenWithJupiter (Some m))) =
       [Acted (attemptLog m); Issued (quoteRequest m); Issued (buildRequest q)]) /\
  (forall (o1 o2 o3 o4 o5 : Oracle Net) (q s : JsValue) (raw : RawTransaction)
          (txid : jsstring) (latest : BlockhashWithExpiry) (c : Confirmation),
     o1 _ (quoteRequest m) = Returns q ->
     refused q = false ->
     o2 _ (buildRequest q) = Returns s ->
     refused s = false ->
     truthy (getProp (str "swapTransaction") s) = true ->
     signedTransaction (getProp (str "swapTransaction") s) = Returns raw ->
     o3 _ (submitRequest raw) = Returns txid ->
     o4 _ GetLatestBlockhash = Returns latest ->
     o5 _ (confirmRequest latest txid) = Returns c ->
     runSeq [o1; o2; o3; o4; o5] (buyTokenWithJupiter (Some m)) =
       ([Acted (attemptLog m);
         Issued (quoteRequest m);
         Issued (buildRequest q);
         Issued (SendRawTransaction raw {| skipPreflight := true; maxRetries := 2 |});
         Issued GetLatestBlockhash;
         Issued (ConfirmTransaction
                   {| cs_blockhash := latest.(blockhash);
                      cs_lastValidBlockHeight := latest.(lastValidBlockHeight);
                      cs_signature := txid |})]
        ++ fst (start (handleTxConfirmation txid c : Flow)),
        Ret tt)).
Proof.
  intros Hm. rewrite (buy_nonblank _ Hm).
  split; [reflexivity|].
  split.
  { intros os. rewrite <- (buy_nonblank _ Hm). apply runSeq_in_order, buy_in_order. }
  unfold runSeq, swapSteps.
  split; [|split; [|split]].
  - intros o os e Ho. crunch.
    change (FetchJson _ None) with (quoteRequest m). rewrite Ho. crunch.
    now rewrite resume_ret.
  - intros o os q Ho Hq. crunch.
    change (FetchJson _ None) with (quoteRequest m). rewrite Ho. crunch.
    assert (Hr : negb (truthy q) || truthy (getProp (str "error") q) = true).
    { destruct Hq as [-> | ->]; [reflexivity | apply orb_true_r]. }
    rewrite Hr. crunch. now rewrite resume_ret.
  - intros o q Ho Hq He. crunch.
    change (FetchJson _ None) with (quoteRequest m). rewrite Ho. crunch.
    rewrite Hq, He. reflexivity.
  - intros o1 o2 o3 o4 o5 q s raw txid latest c H1 Hq H2 Hs Ht Hsig H3 H4 H5.
    unfold refused in Hq, Hs. unfold signedTransaction in Hsig.
    destruct (Buffer_from_base64 _) as [buf|] eqn:Eb; [|discriminate].
    destruct (deserialize buf) as [tx|] eqn:Ed; [|discriminate].
    destruct (sign tx) as [signed|] eqn:Es; [|discriminate].
    crunch.
    change (FetchJson _ None) with (quoteRequest m). rewrite H1. crunch.
    rewrite Hq. crunch.
    change (FetchJson _ (Some _)) with (buildRequest q). rewrite H2. crunch.
    rewrite Hs. crunch. rewrite Ht. crunch.
    rewrite Eb. crunch. rewrite Ed. crunch. rewrite Es. crunch. rewrite Hsig. crunch.
    change (SendRawTransaction raw _) with (submitRequest raw). rewrite H3. crunch.
    rewrite H4. crunch.
    change (ConfirmTransaction _) with (confirmRequest latest txid). rewrite H5. crunch.
    unfold handleTxConfirmation. destruct (looseEqNull _); reflexivity.
Qed.

(* ================================================================== *)
(** ** The fan-out *)

(** C4: the two swap sub-flows of a tick are independent.  Inside the join
    each does exactly what it does on its own with the answers given to its
    own requests, so an exception in one (at the build step, say) neither
    cancels nor changes the other; the join never rejects, stays waiting
    while a sub-flow is pending, and is resolved exactly when both have
    returned, which they have once their requests have settled. *)
Theorem fan_out_independent (sched : list (Settle Net)) (m1 m2 : option jsstring) :
  let abelBuy := buyTokenWithJupiter m1 in
  let trinityBuy := buyTokenWithJupiter m2 in
  let alone1 := runSeq (answersTo First sched) abelBuy in
  let alone2 := runSeq (answersTo Second sched) trinityBuy in
  project First (fst (fst (join sched abelBuy trinityBuy))) = fst alone1 /\
  project Second (fst (fst (join sched abelBuy trinityBuy))) = fst alone2 /\
  (forall (sched' : list (Settle Net)) (m1' : option jsstring),
     answersTo Second sched' = answersTo Second sched ->
     project Second (fst (fst (join sched' (buyTokenWithJupiter m1') trinityBuy))) =
     project Second (fst (fst (join sched abelBuy trinityBuy)))) /\
  (forall (sched' : list (Settle Net)) (m2' : option jsstring),
     answersTo First sched' = answersTo First sched ->
     project First (fst (fst (join sched' abelBuy (buyTokenWithJupiter m2')))) =
     project First (fst (fst (join sched abelBuy trinityBuy)))) /\
  snd (fst (join sched abelBuy trinityBuy)) =
    (if isRet (snd alone1) && isRet (snd alone2)
     then AllResolved
     else Waiting (snd alone1) (snd alone2)) /\
  ((5 <= List.length (answersTo First sched))%nat ->
   (5 <= List.length (answersTo Second sched))%nat ->
   snd (fst (join sched abelBuy trinityBuy)) = AllResolved).
Proof.
  intros abelBuy trinityBuy alone1 alone2.
  pose proof (join_buys sched m1 m2) as H.
  fold abelBuy trinityBuy in H.
  destruct (join sched abelBuy trinityBuy) as [[tr st] rest] eqn:Ej.
  destruct H as (H1 & H2 & H3). fold alone1 alone2 in H1, H2, H3. simpl.
  repeat split; auto.
  - intros sched' m1' Heq.
    pose proof (join_buys sched' m1' m2) as H'. fold trinityBuy in H'.
    destruct (join sched' _ trinityBuy) as [[tr' st'] rest'].
    destruct H' as (_ & H2' & _). simpl. rewrite H2', H2, Heq. reflexivity.
  - intros sched' m2' Heq.
    pose proof (join_buys sched' m1 m2') as H'. fold abelBuy in H'.
    destruct (join sched' abelBuy _) as [[tr' st'] rest'].
    destruct H' as (H1' & _ & _). simpl. rewrite H1', H1, Heq. reflexivity.
  - intros L1 L2. rewrite H3. unfold alone1, alone2, abelBuy, trinityBuy.
    rewrite (runSeq_resolves _ (buy_never_rejects m1) (buy_awaits m1) L1).
    rewrite (runSeq_resolves _ (buy_never_rejects m2) (buy_awaits m2) L2).
    reflexivity.
Qed.

(* ================================================================== *)
(** ** Ticks *)

Lemma subOf_subTrace (s : Side) (tr : list (Side * Obs Net)) :
  subOf s (subTrace tr) = project s tr.
Proof.
  unfold subOf, subTrace, project.
  induction tr as [|[s' o] tr IH]; simpl; [reflexivity|].
  rewrite IH. destruct (Side_eqb s' s); reflexivity.
Qed.

Lemma reschedules_subTrace (tr : list (Side * Obs Net)) :
  Forall (fun x => quietObs (snd x)) tr -> reschedules (subTrace tr) = false.
Proof.
  unfold reschedules, subTrace.
  induction 1 as [|[s o] tr Ho Htr IH]; simpl; [reflexivity|].
  rewrite IH. destruct o as [a|X req]; simpl in *; [|reflexivity].
  destruct a; simpl in *; try discriminate; reflexivity.
Qed.

Lemma join_starts {E} (sched : list (Settle E)) (p q : Proc E unit) :
  exists rest,
    fst (fst (join sched p q)) = tag First (fst (start p)) ++ tag Second (fst (start q)) ++ rest.
Proof.
  unfold join. destruct (start p) as [tr1 p1], (start q) as [tr2 q1].
  destruct (joinLoop sched p1 q1) as [[tr st] rest]. simpl. now exists tr.
Qed.

(** A tick that finds [done] false either polls and asks for the next tick,
    or sets [done], fans out once and registers no timer. *)
Lemma tick_summary (env : TickEnv) (g : Globals) :
  g.(done) = false ->
  let r := runTick env g in
  (countFanOuts r.(tick_trace) = 0%nat /\
   r.(tick_globals) = {| done := false; timers := g.(timers) ++ [POLL_INTERVAL_MS] |} /\
   r.(tick_status) = Resolved tt /\
   reschedules r.(tick_trace) = true) \/
  (countFanOuts r.(tick_trace) = 1%nat /\
   r.(tick_globals) = {| done := true; timers := g.(timers) |} /\
   (r.(tick_status) = Resolved tt \/ r.(tick_status) = Blocked) /\
   reschedules r.(tick_trace) = false).
Proof.
  intros Hd r. subst r.
  destruct (env.(fetched) SPORE_API_URL) as [resp|e] eqn:Hf.
  2:{ left. rewrite (tick_fetch_fails env g Hd Hf). auto. }
  destruct (env.(parsed) resp) as [data|e] eqn:Hp.
  2:{ left. rewrite (tick_parse_fails env g Hd Hf Hp). auto. }
  destruct (revealDetected (tokenOf AGENT_ABEL_ID (snd data).(json))
                           (tokenOf AGENT_TRINITY_ID (snd data).(json))) eqn:Hr.
  2:{ left. rewrite (tick_no_reveal env g Hd Hf Hp Hr). auto. }
  right. rewrite (tick_reveal env g Hd Hf Hp Hr).
  cbn [tick_trace tick_globals tick_status].
  repeat split.
  - unfold countFanOuts. cbn [List.filter isFanOut]. now rewrite filter_isFanOut_subTrace.
  - destruct (isAllResolved _); auto.
  - unfold reschedules. cbn [existsb isSetTimeout orb].
    apply reschedules_subTrace, join_quiet; apply buy_quiet.
Qed.

(** C3: in a snapshot where entity 6 has token ["Mint1"] and entity 7 the
    empty string, the tick sets [done] and calls the executor for both
    addresses: the sub-flow for ["Mint1"] runs its sequence, starting with the
    quote request, the one for [""] only logs the guard's diagnostic and
    sends nothing; no timer is registered, nothing is left detached, and the
    tick is over as soon as the requests of the first sub-flow have
    settled. *)
Theorem one_revealed_target_triggers (env : TickEnv) (g : Globals)
        (resp : Response) (data : SporeApiResponse) (a6 a7 : Agent) :
  g.(done) = false ->
  env.(fetched) SPORE_API_URL = Returns resp ->
  env.(parsed) resp = Returns data ->
  firstWithId AGENT_ABEL_ID (snd data).(json) a6 ->
  a6.(tokenAddress) = Some (str "Mint1") ->
  firstWithId AGENT_TRINITY_ID (snd data).(json) a7 ->
  a7.(tokenAddress) = Some (str "") ->
  let r := runTick env g in
  let abelBuy := buyTokenWithJupiter (Some (str "Mint1")) in
  let trinityBuy := buyTokenWithJupiter (Some (str "")) in
  (exists rest,
     r.(tick_trace) =
       [Own (Issued (Fetch SPORE_API_URL));
        Own (Issued (ResponseJson resp));
        Own (Acted SetDone);
        Own (Acted (detectedLog (str "Mint1") (str "")));
        Own (Issued (PromiseAll abelBuy trinityBuy));
        Sub First (Acted (attemptLog (str "Mint1")));
        Sub First (Issued (quoteRequest (str "Mint1")));
        Sub Second (Acted (invalidMint (Some (str ""))))] ++ rest) /\
  subOf First r.(tick_trace) = fst (runSeq (answersTo First env.(schedule)) abelBuy) /\
  subOf Second r.(tick_trace) = [Acted (invalidMint (Some (str "")))] /\
  r.(tick_globals) = {| done := true; timers := g.(timers) |} /\
  reschedules r.(tick_trace) = false /\
  r.(tick_detached) = [] /\
  r.(tick_status) =
    (if isRet (snd (runSeq (answersTo First env.(schedule)) abelBuy))
     then Resolved tt else Blocked) /\
  ((5 <= List.length (answersTo First env.(schedule)))%nat -> r.(tick_status) = Resolved tt).
Proof.
  intros Hd Hf Hp H6 T6 H7 T7 r abelBuy trinityBuy.
  assert (E6 : tokenOf AGENT_ABEL_ID (snd data).(json) = str "Mint1").
  { rewrite (tokenOf_first H6). simpl. now rewrite T6. }
  assert (E7 : tokenOf AGENT_TRINITY_ID (snd data).(json) = str "").
  { rewrite (tokenOf_first H7). simpl. now rewrite T7. }
  assert (Hr : revealDetected (tokenOf AGENT_ABEL_ID (snd data).(json))
                              (tokenOf AGENT_TRINITY_ID (snd data).(json)) = true).
  { now rewrite E6, E7. }
  subst r. rewrite (tick_reveal env g Hd Hf Hp Hr). rewrite E6, E7.
  fold abelBuy trinityBuy. cbn [tick_trace tick_globals tick_status tick_detached].
  pose proof (join_buys env.(schedule) (Some (str "Mint1")) (Some (str ""))) as F.
  pose proof (join_starts env.(schedule) abelBuy trinityBuy) as (rest & Hs).
  pose proof (join_quiet env.(schedule) (buy_quiet (Some (str "Mint1")))
                (buy_quiet (Some (str "")))) as Hq.
  fold abelBuy trinityBuy in F, Hq.
  destruct (join env.(schedule) abelBuy trinityBuy) as [[jtr jst] jrest].
  destruct F as (F1 & F2 & F5).
  assert (B2 : forall os : list (Oracle Net),
             runSeq os trinityBuy = ([Acted (invalidMint (Some (str "")))], Ret tt)).
  { intros os. apply buy_blank_run. reflexivity. }
  cbn [fst snd] in *.
  assert (St : (if isAllResolved jst then Resolved tt else Blocked) =
               (if isRet (snd (runSeq (answersTo First env.(schedule)) abelBuy))
                then Resolved tt else @Blocked unit)).
  { rewrite F5, B2. simpl. rewrite andb_true_r.
    destruct (isRet _); reflexivity. }
  repeat split.
  - rewrite Hs. exists (subTrace rest). unfold subTrace. rewrite !map_app. reflexivity.
  - rewrite <- F1. apply (subOf_subTrace First jtr).
  - rewrite <- (subOf_subTrace Second jtr) in F2. rewrite B2 in F2. exact F2.
  - unfold reschedules. cbn [existsb isSetTimeout orb].
    apply reschedules_subTrace, Hq.
  - exact St.
  - intros L. rewrite St.
    unfold abelBuy.
    now rewrite (runSeq_resolves _ (buy_never_rejects _) (buy_awaits _) L).
Qed.

(** *** The ticks of a run *)

Lemma fanOuts_cons (r : TickResult unit) (rs : list (TickResult unit)) :
  fanOuts (r :: rs) = (countFanOuts r.(tick_trace) + fanOuts rs)%nat.
Proof.
  unfold fanOuts, countFanOuts. simpl. now rewrite filter_app, length_app.
Qed.

Lemma lifetime_facts (d : bool) (rs : list (TickResult unit)) :
  Lifetime d rs ->
  forall g, g.(done) = d ->
    (exists n, doneHistory g rs =
               repeat false n ++ repeat true (S (List.length rs) - n)) /\
    (fanOuts rs <= 1)%nat /\
    (d = true ->
     fanOuts rs = 0%nat /\ doneHistory g rs = repeat true (S (List.length rs))).
Proof.
  induction 1 as [d|r rs Hf Hd Hl IH|r rs Hf Hd Hl IH|r rs Hf Hd Hl IH]; intros g Hg.
  - unfold doneHistory. simpl. rewrite Hg. split; [|split].
    + destruct d; [exists 0%nat | exists 1%nat]; reflexivity.
    + unfold fanOuts. simpl. lia.
    + intros ->. split; reflexivity.
  - destruct (IH r.(tick_globals) Hd) as (_ & _ & I3).
    destruct (I3 eq_refl) as [I4 I5].
    assert (Hh : doneHistory g (r :: rs) = repeat true (S (List.length (r :: rs)))).
    { change (doneHistory g (r :: rs)) with (g.(done) :: doneHistory r.(tick_globals) rs).
      rewrite Hg, I5. reflexivity. }
    rewrite fanOuts_cons, Hf, I4. split; [|split].
    + exists 0%nat. rewrite Hh. simpl. reflexivity.
    + simpl. lia.
    + intros _. split; [reflexivity | exact Hh].
  - destruct (IH r.(tick_globals) Hd) as ((n & I1) & I2 & _).
    rewrite fanOuts_cons, Hf. split; [|split].
    + exists (S n).
      change (doneHistory g (r :: rs)) with (g.(done) :: doneHistory r.(tick_globals) rs).
      rewrite Hg, I1. reflexivity.
    + simpl. exact I2.
    + discriminate.
  - destruct (IH r.(tick_globals) Hd) as (_ & _ & I3).
    destruct (I3 eq_refl) as [I4 I5].
    rewrite fanOuts_cons, Hf, I4. split; [|split].
    + exists 1%nat.
      change (doneHistory g (r :: rs)) with (g.(done) :: doneHistory r.(tick_globals) rs).
      rewrite Hg, I5. reflexivity.
    + simpl. lia.
    + discriminate.
Qed.

Lemma callEach_lifetime (envs : list TickEnv) :
  forall g, Lifetime g.(done) (callEach envs g).
Proof.
  induction envs as [|env rest IH]; intros g; simpl; [constructor|].
  destruct g.(done) eqn:Hd.
  - rewrite (tick_done env g Hd). simpl.
    apply Life_idle; try reflexivity; try assumption.
    specialize (IH g). now rewrite Hd in IH.
  - specialize (IH (runTick env g).(tick_globals)).
    destruct (tick_summary env g Hd) as [(F & G & _ & _)|(F & G & _ & _)];
      rewrite G in IH; simpl in IH.
    + apply Life_poll; auto; now rewrite G.
    + apply Life_fire; auto; now rewrite G.
Qed.

Lemma eventLoop_idle (envs : list TickEnv) (g : Globals) :
  g.(timers) = [] -> eventLoop envs g = [].
Proof. intros H. destruct envs; simpl; [reflexivity | now rewrite H]. Qed.

(** What follows a tick that started with [done] false and no timer left. *)
Lemma next_ticks_shape (env : TickEnv) (rest : list TickEnv) (g : Globals) :
  g.(done) = false -> g.(timers) = [] ->
  (forall g', g'.(done) = false -> (List.length g'.(timers) <= 1)%nat ->
              ProcShape (eventLoop rest g')) ->
  ProcShape (runTick env g ::
             (if hasSettled (runTick env g)
              then eventLoop rest (runTick env g).(tick_globals) else [])).
Proof.
  intros Hd Ht IH.
  destruct (tick_summary env g Hd) as [(F & G & S & R)|(F & G & S & R)].
  - apply PS_poll; auto; [now rewrite G|].
    unfold hasSettled. rewrite S. apply IH; rewrite G; simpl; [reflexivity|].
    rewrite Ht. simpl. lia.
  - assert (Hn : (if hasSettled (runTick env g)
                  then eventLoop rest (runTick env g).(tick_globals) else []) = []).
    { destruct (hasSettled _); [|reflexivity].
      apply eventLoop_idle. rewrite G. exact Ht. }
    rewrite Hn. apply PS_fire; auto. now rewrite G.
Qed.

Lemma eventLoop_shape (envs : list TickEnv) :
  forall g, g.(done) = false -> (List.length g.(timers) <= 1)%nat ->
            ProcShape (eventLoop envs g).
Proof.
  induction envs as [|env rest IH]; intros g Hd Ht; simpl; [constructor|].
  destruct g.(timers) as [|t later] eqn:Et; [constructor|].
  assert (later = []) as -> by (destruct later; simpl in Ht; [reflexivity | lia]).
  rewrite Hd. apply next_ticks_shape; auto.
Qed.

Lemma process_shape (envs : list TickEnv) : ProcShape (process envs).
Proof.
  destruct envs as [|env rest]; simpl; [constructor|].
  apply next_ticks_shape; auto. apply eventLoop_shape.
Qed.

Lemma shape_lifetime (rs : list (TickResult unit)) :
  ProcShape rs -> Lifetime false rs.
Proof.
  induction 1; [constructor | apply Life_poll; auto |].
  apply Life_fire; auto. constructor.
Qed.

Lemma shape_last (rs : list (TickResult unit)) :
  ProcShape rs ->
  forall pre r post, rs = pre ++ r :: post ->
    (r.(tick_globals).(done) = false -> reschedules r.(tick_trace) = true) /\
    (r.(tick_globals).(done) = true -> reschedules r.(tick_trace) = false /\ post = []).
Proof.
  induction 1 as [|r0 rs F D R Hs IH|r0 F D R]; intros pre r post E.
  - destruct pre; discriminate.
  - destruct pre as [|x pre]; simpl in E.
    + injection E as <- <-. split; intros H; [exact R | congruence].
    + injection E as <- E. exact (IH pre r post E).
  - destruct pre as [|x pre]; simpl in E.
    + injection E as <- <-. split; intros H; [congruence | auto].
    + injection E as _ E. destruct pre; discriminate.
Qed.

Lemma reveal_either (agents : list Agent) :
  revealed AGENT_ABEL_ID agents = true \/ revealed AGENT_TRINITY_ID agents = true ->
  revealDetected (tokenOf AGENT_ABEL_ID agents) (tokenOf AGENT_TRINITY_ID agents) = true.
Proof.
  unfold revealed, revealDetected. intros [-> | ->]; [reflexivity | apply orb_true_r].
Qed.

(** C8: a tick that finds [done] false and whose fetch or parse fails logs
    the failure and registers the next tick 100 ms later; so does a tick that
    detects nothing; a tick that detects a reveal sets [done], runs the
    fan-out and registers no timer, however the swaps end, and in the run of
    the process it is the last tick. *)
Theorem tick_reschedules_unless_detected :
  (forall (env : TickEnv) (g : Globals),
     g.(done) = false ->
     (forall e,
        env.(fetched) SPORE_API_URL = Throws e ->
        runTick env g =
          {| tick_trace := [Own (Issued (Fetch SPORE_API_URL));
                            Own (Acted (pollFailed e));
                            Own (Acted (SetTimeout 100))];
             tick_status := Resolved tt;
             tick_globals := {| done := false; timers := g.(timers) ++ [100] |};
             tick_detached := [] |}) /\
     (forall resp e,
        env.(fetched) SPORE_API_URL = Returns resp ->
        env.(parsed) resp = Throws e ->
        runTick env g =
          {| tick_trace := [Own (Issued (Fetch SPORE_API_URL));
                            Own (Issued (ResponseJson resp));
                            Own (Acted (pollFailed e));
                            Own (Acted (SetTimeout 100))];
             tick_status := Resolved tt;
             tick_globals := {| done := false; timers := g.(timers) ++ [100] |};
             tick_detached := [] |}) /\
     (forall resp data,
        env.(fetched) SPORE_API_URL = Returns resp ->
        env.(parsed) resp = Returns data ->
        revealed AGENT_ABEL_ID (snd data).(json) = false ->
        revealed AGENT_TRINITY_ID (snd data).(json) = false ->
        runTick env g =
          {| tick_trace := [Own (Issued (Fetch SPORE_API_URL));
                            Own (Issued (ResponseJson resp));
                            Own (Acted (SetTimeout 100))];
             tick_status := Resolved tt;
             tick_globals := {| done := false; timers := g.(timers) ++ [100] |};
             tick_detached := [] |}) /\
     (forall resp data,
        env.(fetched) SPORE_API_URL = Returns resp ->
        env.(parsed) resp = Returns data ->
        revealed AGENT_ABEL_ID (snd data).(json) = true \/
        revealed AGENT_TRINITY_ID (snd data).(json) = true ->
        let abelToken := tokenOf AGENT_ABEL_ID (snd data).(json) in
        let trinityToken := tokenOf AGENT_TRINITY_ID (snd data).(json) in
        let r := runTick env g in
        (exists sub,
           r.(tick_trace) =
             [Own (Issued (Fetch SPORE_API_URL));
              Own (Issued (ResponseJson resp));
              Own (Acted SetDone);
              Own (Acted (detectedLog abelToken trinityToken));
              Own (Issued (PromiseAll (buyTokenWithJupiter (Some abelToken))
                                      (buyTokenWithJupiter (Some trinityToken))))]
             ++ subTrace sub) /\
        reschedules r.(tick_trace) = false /\
        r.(tick_globals) = {| done := true; timers := g.(timers) |} /\
        (r.(tick_status) = Resolved tt \/ r.(tick_status) = Blocked) /\
        r.(tick_detached) = [] /\
        ((5 <= List.length (answersTo First env.(schedule)))%nat ->
         (5 <= List.length (answersTo Second env.(schedule)))%nat ->
         r.(tick_status) = Resolved tt))) /\
  (forall (envs : list TickEnv) (pre post : list (TickResult unit)) (r : TickResult unit),
     process envs = pre ++ r :: post ->
     (r.(tick_globals).(done) = false -> reschedules r.(tick_trace) = true) /\
     (r.(tick_globals).(done) = true -> reschedules r.(tick_trace) = false /\ post = [])).
Proof.
  split.
  - intros env g Hd. split; [|split; [|split]].
    + intros e Hf. exact (tick_fetch_fails env g Hd Hf).
    + intros resp e Hf Hp. exact (tick_parse_fails env g Hd Hf Hp).
    + intros resp data Hf Hp H6 H7. apply (tick_no_reveal env g Hd Hf Hp).
      unfold revealDetected. unfold revealed in H6, H7. now rewrite H6, H7.
    + intros resp data Hf Hp Hr abelToken trinityToken r. subst r.
      rewrite (tick_reveal env g Hd Hf Hp (reveal_either _ Hr)).
      fold abelToken trinityToken.
      cbn [tick_trace tick_status tick_globals tick_detached].
      pose proof (join_buys env.(schedule) (Some abelToken) (Some trinityToken)) as F.
      pose proof (join_quiet env.(schedule) (buy_quiet (Some abelToken))
                    (buy_quiet (Some trinityToken))) as Hq.
      destruct (join _ _ _) as [[jtr jst] jrest]. destruct F as (_ & _ & ->).
      cbn [fst snd] in *.
      split; [|split; [|split; [|split; [|split]]]].
      * exists jtr. reflexivity.
      * unfold reschedules. cbn [existsb isSetTimeout orb].
        apply reschedules_subTrace, Hq.
      * reflexivity.
      * destruct (isRet _ && isRet _); auto.
      * reflexivity.
      * intros L1 L2.
        rewrite (runSeq_resolves _ (buy_never_rejects _) (buy_awaits _) L1).
        rewrite (runSeq_resolves _ (buy_never_rejects _) (buy_awaits _) L2).
        reflexivity.
  - intros envs pre post r E. exact (shape_last (process_shape envs) pre r post E).
Qed.

(* ================================================================== *)
(** ** The latch *)

(** C1: no action ever sets [done] back to false; over any succession of
    calls of [pollSporeApi], and over the ticks of the process itself, the
    values of [done] are false up to some tick and true from then on, and the
    fan-out of the swaps is entered at most once. *)
Theorem latch_monotone_single_phase (envs : list TickEnv) :
  (forall (a : Act) (g : Globals), g.(done) = true -> (perform a g).(done) = true) /\
  (forall g : Globals,
     (exists n, doneHistory g (callEach envs g) =
                repeat false n ++ repeat true (S (List.length (callEach envs g)) - n)) /\
     (fanOuts (callEach envs g) <= 1)%nat) /\
  (exists n, doneHistory initialGlobals (process envs) =
             repeat false n ++ repeat true (S (List.length (process envs)) - n)) /\
  (fanOuts (process envs) <= 1)%nat.
Proof.
  split; [|split].
  - intros a g H. destruct a; simpl; auto.
  - intros g.
    destruct (lifetime_facts (callEach_lifetime envs g) g eq_refl) as (H1 & H2 & _).
    auto.
  - destruct (lifetime_facts (shape_lifetime (process_shape envs)) initialGlobals eq_refl)
      as (H1 & H2 & _).
    auto.
Qed.


(* ================================================================== *)
(** ** What a swap sends, and what it reports *)

(** X1: the requests of a swap are made from the answers it received and
    from nothing else.  Whatever the external calls answer, the requests a
    swap for [m] sends are, in order: the quote for [m] as
    [searchParams.set] takes it; the build for the very quote response the
    first call returned, when that response passed the check; the
    submission, preflight skipped and two retries, of the transaction step 3
    decoded, deserialized, signed and serialized from the [swapTransaction]
    of the very build response the second call returned, when that response
    passed the checks; the blockhash read, when the submission returned a
    signature; the confirmation of that signature against that blockhash.
    The sequence stops at the first call that is not answered, throws or
    fails its check, and a blank address sends nothing at all. *)
Theorem swap_requests_follow_the_answers (m : jsstring) (os : list (Oracle Net)) :
  requestsOf (fst (runSeq os (buyTokenWithJupiter (Some m)))) = answeredRequests m os.
Proof.
  unfold answeredRequests.
  destruct (forallb isWhiteSpace m) eqn:Hm.
  { now rewrite (buy_blank_run (Some m) os Hm). }
  rewrite (buy_nonblank _ Hm). unfold runSeq, swapSteps, refused, requestsOf.
  crunch. change (FetchJson _ None) with (quoteRequest m).
  destruct os as [|o1 os]; [reflexivity|]. crunch.
  destruct (o1 _ (quoteRequest m)) as [q|e]; crunch;
    [|now rewrite resume_ret].
  destruct (negb (truthy q) || truthy (getProp (str "error") q)); crunch;
    [now rewrite resume_ret|].
  change (FetchJson _ (Some _)) with (buildRequest q).
  destruct os as [|o2 os]; [reflexivity|]. crunch.
  destruct (o2 _ (buildRequest q)) as [s|e]; crunch;
    [|now rewrite resume_ret].
  destruct (negb (truthy s) || truthy (getProp (str "error") s)); crunch;
    [now rewrite resume_ret|].
  destruct (truthy (getProp (str "swapTransaction") s)); crunch;
    [|now rewrite resume_ret].
  unfold signedTransaction.
  destruct (Buffer_from_base64 _) as [buf|e]; crunch; [|now rewrite resume_ret].
  destruct (deserialize buf) as [tx|e]; crunch; [|now rewrite resume_ret].
  destruct (sign tx) as [signed|e]; crunch; [|now rewrite resume_ret].
  destruct (serialize signed) as [raw|e]; crunch; [|now rewrite resume_ret].
  change (SendRawTransaction raw _) with (submitRequest raw).
  destruct os as [|o3 os]; [reflexivity|]. crunch.
  destruct (o3 _ (submitRequest raw)) as [txid|e]; crunch;
    [|now rewrite resume_ret].
  destruct os as [|o4 os]; [reflexivity|]. crunch.
  destruct (o4 _ GetLatestBlockhash) as [latest|e]; crunch;
    [|now rewrite resume_ret].
  change (ConfirmTransaction _) with (confirmRequest latest txid).
  destruct os as [|o5 os]; [reflexivity|]. crunch.
  destruct (o5 _ (confirmRequest latest txid)) as [c|e]; crunch;
    [|now rewrite resume_ret].
  unfold handleTxConfirmation.
  destruct (looseEqNull _); crunch; now rewrite resume_ret.
Qed.

(** An address with a surrogate that is not half of a pair is logged as it
    is and asked for with U+FFFD in its place. *)
Lemma lone_surrogate_is_replaced :
  toUSVString loneSurrogateMint = str "Mint" ++ [65533%N] /\
  fst (start (buyTokenWithJupiter (Some loneSurrogateMint))) =
    [Acted (attemptLog loneSurrogateMint);
     Issued (quoteRequest (str "Mint" ++ [65533%N]))].
Proof. split; reflexivity. Qed.

(** An address without surrogates is asked for as it is. *)
Lemma toUSVString_plain (s : jsstring) :
  forallb (fun c => negb (isHighSurrogate c || isLowSurrogate c)) s = true ->
  toUSVString s = s.
Proof.
  induction s as [|c s IH]; [reflexivity|]. cbn [forallb]. intros H.
  apply andb_true_iff in H. destruct H as [Hc Hs].
  apply negb_true_iff, orb_false_iff in Hc. destruct Hc as [Hh Hl].
  cbn [toUSVString]. rewrite Hh, Hl. f_equal. exact (IH Hs).
Qed.

Lemma swap_error_of_falsy (s : JsValue) :
  truthy s = false ->
  nullish (optProp (str "error") s) (JStr (str "Unknown error")) = JStr (str "Unknown error").
Proof.
  destruct s; simpl; intros H; try discriminate; reflexivity.
Qed.

Lemma swap_error_of_truthy (s : JsValue) :
  truthy s = true ->
  truthy (getProp (str "error") s) = true ->
  nullish (optProp (str "error") s) (JStr (str "Unknown error")) = getProp (str "error") s.
Proof.
  intros Hs He. unfold optProp, nullish.
  assert (looseEqNull s = false) as -> by (destruct s; simpl in Hs; try discriminate; reflexivity).
  destruct (getProp (str "error") s); simpl in He; try discriminate; reflexivity.
Qed.

(** X2: once the quote has passed, a build step that fails submits nothing.
    The flow logs ['Jupiter swap failed:'] with the exception of the build
    call, with [Unknown error] when the build response is falsy, with the
    response's [error] when that is truthy, with the missing
    [swapTransaction], or with the exception of step 3 (decoding,
    deserializing, signing, serializing), and it returns. *)
Theorem build_failure_submits_nothing (m : jsstring) (o1 o2 : Oracle Net)
        (os : list (Oracle Net)) (q : JsValue) :
  forallb isWhiteSpace m = false ->
  o1 _ (quoteRequest m) = Returns q ->
  refused q = false ->
  let sent := [Acted (attemptLog m); Issued (quoteRequest m); Issued (buildRequest q)] in
  let run := runSeq (o1 :: o2 :: os) (buyTokenWithJupiter (Some m)) in
  (forall e,
     o2 _ (buildRequest q) = Throws e ->
     run = (sent ++ [Acted (swapFailed e)], Ret tt)) /\
  (forall s,
     o2 _ (buildRequest q) = Returns s ->
     truthy s = false ->
     run = (sent ++ [Acted (swapFailed
                               (NewError (str "Swap API returned an error: ")
                                         (Some (JStr (str "Unknown error")))))],
            Ret tt)) /\
  (forall s,
     o2 _ (buildRequest q) = Returns s ->
     truthy s = true ->
     truthy (getProp (str "error") s) = true ->
     run = (sent ++ [Acted (swapFailed
                               (NewError (str "Swap API returned an error: ")
                                         (Some (getProp (str "error") s))))],
            Ret tt)) /\
  (forall s,
     o2 _ (buildRequest q) = Returns s ->
     refused s = false ->
     truthy (getProp (str "swapTransaction") s) = false ->
     run = (sent ++ [Acted (swapFailed
                               (NewError (str "No swapTransaction found in response.")
                                         None))],
            Ret tt)) /\
  (forall s e,
     o2 _ (buildRequest q) = Returns s ->
     refused s = false ->
     truthy (getProp (str "swapTransaction") s) = true ->
     signedTransaction (getProp (str "swapTransaction") s) = Throws e ->
     run = (sent ++ [Acted (swapFailed e)], Ret tt)).
Proof.
  intros Hm H1 Hq sent run. subst sent run.
  rewrite (buy_nonblank _ Hm). unfold runSeq, swapSteps, refused in *.
  crunch. change (FetchJson _ None) with (quoteRequest m). rewrite H1. crunch.
  rewrite Hq. crunch. change (FetchJson _ (Some _)) with (buildRequest q).
  split; [|split; [|split; [|split]]].
  - intros e H2. rewrite H2. crunch. now rewrite resume_ret.
  - intros s H2 Hs. rewrite H2. crunch. rewrite Hs. crunch.
    rewrite resume_ret, (swap_error_of_falsy _ Hs). reflexivity.
  - intros s H2 Hs He. rewrite H2. crunch. rewrite Hs, He. crunch.
    rewrite resume_ret, (swap_error_of_truthy _ Hs He). reflexivity.
  - intros s H2 Hs Ht. rewrite H2. crunch. rewrite Hs. crunch. rewrite Ht. crunch.
    now rewrite resume_ret.
  - intros s e H2 Hs Ht Hg. rewrite H2. crunch. rewrite Hs. crunch. rewrite Ht. crunch.
    unfold signedTransaction in Hg.
    destruct (Buffer_from_base64 _) as [buf|e1]; crunch;
      [|injection Hg as ->; now rewrite resume_ret].
    destruct (deserialize buf) as [tx|e2]; crunch;
      [|injection Hg as ->; now rewrite resume_ret].
    destruct (sign tx) as [signed|e3]; crunch;
      [|injection Hg as ->; now rewrite resume_ret].
    rewrite Hg. crunch. now rewrite resume_ret.
Qed.

(** X3: a failure from the submission on is logged as ['Jupiter swap
    failed:'] and nothing more.  When [sendRawTransaction] throws, no further
    request is made; when [getLatestBlockhash] or [confirmTransaction] throws,
    the submission has already returned a signature, yet no confirmation is
    interpreted and the signature is not logged. *)
Theorem failure_after_submission (m : jsstring) (o1 o2 o3 o4 o5 : Oracle Net)
        (os : list (Oracle Net)) (q s : JsValue) (raw : RawTransaction) :
  forallb isWhiteSpace m = false ->
  o1 _ (quoteRequest m) = Returns q ->
  refused q = false ->
  o2 _ (buildRequest q) = Returns s ->
  refused s = false ->
  truthy (getProp (str "swapTransaction") s) = true ->
  signedTransaction (getProp (str "swapTransaction") s) = Returns raw ->
  let sent := [Acted (attemptLog m); Issued (quoteRequest m); Issued (buildRequest q);
               Issued (submitRequest raw)] in
  (forall e,
     o3 _ (submitRequest raw) = Throws e ->
     runSeq (o1 :: o2 :: o3 :: os) (buyTokenWithJupiter (Some m)) =
       (sent ++ [Acted (swapFailed e)], Ret tt)) /\
  (forall txid e,
     o3 _ (submitRequest raw) = Returns txid ->
     o4 _ GetLatestBlockhash = Throws e ->
     runSeq (o1 :: o2 :: o3 :: o4 :: os) (buyTokenWithJupiter (Some m)) =
       (sent ++ [Issued GetLatestBlockhash; Acted (swapFailed e)], Ret tt)) /\
  (forall txid latest e,
     o3 _ (submitRequest raw) = Returns txid ->
     o4 _ GetLatestBlockhash = Returns latest ->
     o5 _ (confirmRequest latest txid) = Throws e ->
     runSeq (o1 :: o2 :: o3 :: o4 :: o5 :: os) (buyTokenWithJupiter (Some m)) =
       (sent ++ [Issued GetLatestBlockhash; Issued (confirmRequest latest txid);
                 Acted (swapFailed e)], Ret tt)).
Proof.
  intros Hm H1 Hq H2 Hs Ht Hg sent. subst sent.
  rewrite (buy_nonblank _ Hm). unfold runSeq, swapSteps, refused in *.
  unfold signedTransaction in Hg.
  destruct (Buffer_from_base64 _) as [buf|] eqn:Eb; [|discriminate].
  destruct (deserialize buf) as [tx|] eqn:Ed; [|discriminate].
  destruct (sign tx) as [signed|] eqn:Es; [|discriminate].
  split; [|split].
  - intros e H3. upto_submit m q raw H1 Hq H2 Hs Ht Eb Ed Es Hg.
    rewrite H3. crunch. now rewrite resume_ret.
  - intros txid e H3 H4. upto_submit m q raw H1 Hq H2 Hs Ht Eb Ed Es Hg.
    rewrite H3. crunch. rewrite H4. crunch. now rewrite resume_ret.
  - intros txid latest e H3 H4 H5. upto_submit m q raw H1 Hq H2 Hs Ht Eb Ed Es Hg.
    rewrite H3. crunch. rewrite H4. crunch.
    change (ConfirmTransaction _) with (confirmRequest latest txid).
    rewrite H5. crunch. now rewrite resume_ret.
Qed.

Lemma actsOf_app {E} (a b : list (Obs E)) : actsOf (a ++ b) = actsOf a ++ actsOf b.
Proof. unfold actsOf. apply flat_map_app. Qed.

Lemma tryCatch_path_acts {E R} (P W : list Act -> Prop) (Q Q' : list Act -> Exn -> Prop)
      (acc : list Act) (p : Proc E R) (h : Exn -> Proc E R) :
  PathActs P W Q' acc p ->
  (forall acc e, Q' acc e -> PathActs P W Q acc (h e)) ->
  PathActs P W Q acc (tryCatch p h).
Proof.
  intros H Hh. induction H as [acc r Hr|acc e He|acc a k Hk IH|acc X req k Hw Hk IH]; simpl.
  - constructor. exact Hr.
  - apply Hh, He.
  - constructor. exact IH.
  - constructor; [exact Hw|]. intros o. apply IH.
Qed.

Lemma start_path_acts {E R} (P W : list Act -> Prop) (Q : list Act -> Exn -> Prop)
      (acc : list Act) (p : Proc E R) :
  PathActs P W Q acc p ->
  Stopped P W Q (acc ++ actsOf (fst (start p))) (snd (start p)).
Proof.
  induction 1 as [acc r Hr|acc e He|acc a k Hk IH|acc X req k Hw Hk IH]; simpl.
  - now rewrite app_nil_r.
  - now rewrite app_nil_r.
  - destruct (start k) as [tr p']. simpl in *.
    now rewrite <- app_assoc in IH.
  - rewrite app_nil_r. split; assumption.
Qed.

Lemma settle_path_acts {E R} (P W : list Act -> Prop) (Q : list Act -> Exn -> Prop)
      (o : Oracle E) (acc : list Act) (p : Proc E R) :
  Stopped P W Q acc p ->
  Stopped P W Q (acc ++ actsOf (fst (settle o p))) (snd (settle o p)).
Proof.
  destruct p as [r|e|a k|X req k]; simpl; intros H.
  - now rewrite app_nil_r.
  - now rewrite app_nil_r.
  - contradiction.
  - destruct H as [_ H]. apply start_path_acts, H.
Qed.

Lemma resume_path_acts {E R} (P W : list Act -> Prop) (Q : list Act -> Exn -> Prop)
      (os : list (Oracle E)) :
  forall (acc : list Act) (p : Proc E R),
    Stopped P W Q acc p ->
    Stopped P W Q (acc ++ actsOf (fst (resume os p))) (snd (resume os p)).
Proof.
  induction os as [|o os IH]; intros acc p H; simpl.
  - now rewrite app_nil_r.
  - pose proof (@settle_path_acts _ _ P W Q o acc p H) as H1.
    destruct (settle o p) as [tr p']. simpl in *.
    specialize (IH _ _ H1). destruct (resume os p') as [tr' p'']. simpl in *.
    now rewrite actsOf_app, app_assoc.
Qed.

Lemma runSeq_path_acts {E R} (P W : list Act -> Prop) (Q : list Act -> Exn -> Prop)
      (os : list (Oracle E)) (acc : list Act) (p : Proc E R) :
  PathActs P W Q acc p ->
  Stopped P W Q (acc ++ actsOf (fst (runSeq os p))) (snd (runSeq os p)).
Proof.
  intros H. unfold runSeq.
  pose proof (start_path_acts H) as H1.
  destruct (start p) as [tr p']. simpl in *.
  pose proof (@resume_path_acts _ _ P W Q os _ _ H1) as H2.
  destruct (resume os p') as [tr' p'']. simpl in *.
  now rewrite actsOf_app, app_assoc.
Qed.

Lemma swapSteps_path_acts (m : jsstring) :
  PathActs (fun acts => exists report, acts = attemptLog m :: report /\ isReport report)
           (fun acts => acts = [attemptLog m])
           (fun acts _ => acts = [attemptLog m])
           [] (swapSteps m).
Proof.
  unfold swapSteps. crunch. apply PA_Do. simpl.
  apply PA_Await; [reflexivity|].
  intros [q|e]; crunch; [|now constructor].
  destruct (_ || _); [now constructor|].
  apply PA_Await; [reflexivity|].
  intros [s|e]; crunch; [|now constructor].
  destruct (_ || _); [now constructor|].
  destruct (negb _); [now constructor|].
  destruct (Buffer_from_base64 _) as [buf|e]; crunch; [|now constructor].
  destruct (deserialize buf) as [tx|e]; crunch; [|now constructor].
  destruct (sign tx) as [signed|e]; crunch; [|now constructor].
  destruct (serialize signed) as [raw|e]; crunch; [|now constructor].
  apply PA_Await; [reflexivity|].
  intros [txid|e]; crunch; [|now constructor].
  apply PA_Await; [reflexivity|].
  intros [latest|e]; crunch; [|now constructor].
  apply PA_Await; [reflexivity|].
  intros [c|e]; crunch; [|now constructor].
  unfold handleTxConfirmation. destruct (looseEqNull _); crunch.
  - apply PA_Do, PA_Do, PA_Ret. simpl. eexists. split; [reflexivity|].
    left. now exists txid.
  - apply PA_Do, PA_Ret. simpl. eexists. split; [reflexivity|].
    right. left. now eexists.
Qed.

(** X4: a swap for a non-blank address logs the attempt and, once it is
    over, exactly one report after it: success with the explorer link, the
    transaction's error, or ['Jupiter swap failed:'] with what was caught;
    while a request is pending it has logged the attempt and nothing else. *)
Theorem swap_reports_once (m : jsstring) (os : list (Oracle Net)) :
  forallb isWhiteSpace m = false ->
  let run := runSeq os (buyTokenWithJupiter (Some m)) in
  (isAwait (snd run) = true /\ actsOf (fst run) = [attemptLog m]) \/
  (snd run = Ret tt /\
   exists report, actsOf (fst run) = attemptLog m :: report /\ isReport report).
Proof.
  intros Hm run. subst run. rewrite (buy_nonblank _ Hm).
  assert (H : PathActs
                (fun acts => exists report, acts = attemptLog m :: report /\ isReport report)
                (fun acts => acts = [attemptLog m])
                (fun _ _ => False)
                [] (tryCatch (swapSteps m) (fun error => act (swapFailed error)))).
  { apply tryCatch_path_acts with (Q' := fun acts _ => acts = [attemptLog m]).
    - apply swapSteps_path_acts.
    - intros acc e ->. apply PA_Do, PA_Ret. simpl. eexists. split; [reflexivity|].
      right. right. now exists e. }
  pose proof (@runSeq_path_acts _ _ _ _ _ os _ _ H) as S. simpl in S.
  destruct (runSeq os _) as [tr p]. simpl in *.
  destruct p as [[]|e|a k|X req k]; simpl in S.
  - right. split; [reflexivity | exact S].
  - contradiction.
  - contradiction.
  - left. split; [reflexivity | apply S].
Qed.

(* ================================================================== *)
(** ** The process as a whole *)

Lemma start_buy_token (target : Z) (agents : list Agent) :
  fst (start (buyTokenWithJupiter (Some (tokenOf target agents)))) =
  opening (tokenOf target agents).
Proof.
  unfold opening.
  destruct (0 <? List.length (tokenOf target agents))%nat eqn:E.
  - apply length_pos_iff in E.
    rewrite (buy_nonblank _ (nonempty_token_nonblank _ _ E)). reflexivity.
  - destruct (tokenOf target agents) as [|c t]; [reflexivity | discriminate].
Qed.

(** X5: when a tick detects a reveal, both swaps are started before anything
    settles, entity 6's first: each logs its attempt and sends its quote
    request for the trimmed token when that token is non-empty, and only logs
    the guard's diagnostic otherwise; at least one of the two sends a quote
    request. *)
Theorem fan_out_opens_both_swaps (env : TickEnv) (g : Globals)
        (resp : Response) (data : SporeApiResponse) :
  g.(done) = false ->
  env.(fetched) SPORE_API_URL = Returns resp ->
  env.(parsed) resp = Returns data ->
  revealed AGENT_ABEL_ID (snd data).(json) = true \/
  revealed AGENT_TRINITY_ID (snd data).(json) = true ->
  let abelToken := tokenOf AGENT_ABEL_ID (snd data).(json) in
  let trinityToken := tokenOf AGENT_TRINITY_ID (snd data).(json) in
  (exists rest,
     (runTick env g).(tick_trace) =
       [Own (Issued (Fetch SPORE_API_URL));
        Own (Issued (ResponseJson resp));
        Own (Acted SetDone);
        Own (Acted (detectedLog abelToken trinityToken));
        Own (Issued (PromiseAll (buyTokenWithJupiter (Some abelToken))
                                (buyTokenWithJupiter (Some trinityToken))))]
       ++ List.map (Sub First) (opening abelToken)
       ++ List.map (Sub Second) (opening trinityToken)
       ++ List.map (fun x => Sub (fst x) (snd x)) rest) /\
  (In (Issued (quoteRequest abelToken)) (opening abelToken) \/
   In (Issued (quoteRequest trinityToken)) (opening trinityToken)).
Proof.
  intros Hd Hf Hp Hr abelToken trinityToken. split.
  - rewrite (tick_reveal env g Hd Hf Hp (reveal_either _ Hr)).
    fold abelToken trinityToken. cbn [tick_trace].
    destruct (join_starts env.(schedule) (buyTokenWithJupiter (Some abelToken))
                (buyTokenWithJupiter (Some trinityToken))) as (rest & ->).
    unfold abelToken, trinityToken. rewrite !start_buy_token.
    exists rest. unfold subTrace, tag. rewrite !map_app, !map_map. reflexivity.
  - unfold opening, revealed in *. fold abelToken trinityToken in Hr.
    destruct Hr as [-> | ->]; [left | right]; simpl; auto.
Qed.




Lemma filter_isSwapEvent_own (tr : list PollObs) :
  Forall (fun o => isSwapEvent o = false) tr -> List.filter isSwapEvent tr = [].
Proof.
  induction 1 as [|o tr Ho Htr IH]; simpl; [reflexivity|]. now rewrite Ho.
Qed.





Lemma after_clean_tick (env : TickEnv) (rest : list TickEnv) :
  (if hasSettled (runTick env initialGlobals)
   then eventLoop rest (runTick env initialGlobals).(tick_globals) else []) =
  (if staysQuiet env
   then eventLoop rest {| done := false; timers := [POLL_INTERVAL_MS] |} else []).
Proof.
  unfold staysQuiet.
  destruct (env.(fetched) SPORE_API_URL) as [resp|e] eqn:Hf.
  2:{ rewrite (tick_fetch_fails env initialGlobals eq_refl Hf). reflexivity. }
  destruct (env.(parsed) resp) as [data|e] eqn:Hp.
  2:{ rewrite (tick_parse_fails env initialGlobals eq_refl Hf Hp). reflexivity. }
  destruct (revealDetected _ _) eqn:Hr.
  - rewrite (tick_reveal env initialGlobals eq_refl Hf Hp Hr).
    cbn [hasSettled tick_status tick_globals negb].
    destruct (isAllResolved _); [|reflexivity].
    apply eventLoop_idle. reflexivity.
  - rewrite (tick_no_reveal env initialGlobals eq_refl Hf Hp Hr). reflexivity.
Qed.

(** Every tick of the process starts from the same state: [done] false and
    no timer pending; ticks go on until the first that does not stay
    quiet. *)
Lemma eventLoop_unfolds (envs : list TickEnv) :
  eventLoop envs {| done := false; timers := [POLL_INTERVAL_MS] |} =
  List.map (fun env => runTick env initialGlobals) (upToReveal envs).
Proof.
  induction envs as [|env rest IH]; [reflexivity|].
  cbn [eventLoop timers done upToReveal List.map].
  change {| done := false; timers := [] |} with initialGlobals.
  f_equal. rewrite after_clean_tick.
  destruct (staysQuiet env); [exact IH | reflexivity].
Qed.

Lemma process_unfolds (envs : list TickEnv) :
  process envs = List.map (fun env => runTick env initialGlobals) (upToReveal envs).
Proof.
  destruct envs as [|env rest]; [reflexivity|].
  cbn [process upToReveal List.map]. f_equal. rewrite after_clean_tick.
  destruct (staysQuiet env); [apply eventLoop_unfolds | reflexivity].
Qed.



Lemma filter_isFeedRequest_subTrace (tr : list (Side * Obs Net)) :
  List.filter isFeedRequest (subTrace tr) = [].
Proof.
  unfold subTrace. induction tr as [|x tr IH]; simpl; auto.
Qed.

(** A tick that starts with [done] false and no timer pending. *)
Lemma clean_tick_facts (env : TickEnv) :
  let r := runTick env initialGlobals in
  List.length (List.filter isFeedRequest r.(tick_trace)) = 1%nat /\
  r.(tick_globals) =
    {| done := negb (staysQuiet env);
       timers := if staysQuiet env then [POLL_INTERVAL_MS] else [] |} /\
  (staysQuiet env = true ->
   r.(tick_status) = Resolved tt /\
   List.filter isSwapEvent r.(tick_trace) = [] /\
   reschedules r.(tick_trace) = true).
Proof.
  unfold staysQuiet.
  destruct (env.(fetched) SPORE_API_URL) as [resp|e] eqn:Hf.
  2:{ rewrite (tick_fetch_fails env initialGlobals eq_refl Hf). simpl. auto. }
  destruct (env.(parsed) resp) as [data|e] eqn:Hp.
  2:{ rewrite (tick_parse_fails env initialGlobals eq_refl Hf Hp). simpl. auto. }
  destruct (revealDetected _ _) eqn:Hr.
  - rewrite (tick_reveal env initialGlobals eq_refl Hf Hp Hr).
    cbn [tick_trace tick_globals tick_status List.filter isFeedRequest negb].
    rewrite filter_isFeedRequest_subTrace. split; [reflexivity|]. split; [reflexivity|].
    discriminate.
  - rewrite (tick_no_reveal env initialGlobals eq_refl Hf Hp Hr). simpl. auto.
Qed.

Lemma upToReveal_all_quiet (envs : list TickEnv) :
  forallb staysQuiet envs = true -> upToReveal envs = envs.
Proof.
  induction envs as [|env rest IH]; simpl; [reflexivity|].
  intros H. apply andb_prop in H. destruct H as [H1 H2].
  rewrite H1, (IH H2). reflexivity.
Qed.

(** X7: as long as every tick's feed fails or shows no token for either
    target, polling goes on: the process makes one tick per environment, each
    resolves with [done] still false and exactly one timer of 100 ms pending,
    and none sends anything to the swap service or the ledger. *)
Theorem polling_persists (envs : list TickEnv) :
  forallb staysQuiet envs = true ->
  List.length (process envs) = List.length envs /\
  Forall (fun r =>
            r.(tick_status) = Resolved tt /\
            r.(tick_globals) = {| done := false; timers := [100] |} /\
            List.filter isSwapEvent r.(tick_trace) = [] /\
            reschedules r.(tick_trace) = true)
         (process envs).
Proof.
  intros H. rewrite process_unfolds, (upToReveal_all_quiet _ H). split.
  - apply length_map.
  - apply Forall_map, Forall_forall. intros env Hin.
    assert (Hq : staysQuiet env = true).
    { rewrite forallb_forall in H. apply H, Hin. }
    destruct (clean_tick_facts env) as (_ & G & F).
    destruct (F Hq) as (F1 & F2 & F3). rewrite G, Hq. auto.
Qed.

(** X8: only one poll at a time.  The ticks of the process are the calls of
    [pollSporeApi] for the successive environments up to the first that
    reveals, each started with [done] false and no timer pending; each sends
    exactly one feed request and leaves one timer pending if it stayed quiet,
    none if it revealed. *)
Theorem one_poll_at_a_time (envs : list TickEnv) :
  process envs = List.map (fun env => runTick env initialGlobals) (upToReveal envs) /\
  (forall env : TickEnv,
     List.length (List.filter isFeedRequest (runTick env initialGlobals).(tick_trace)) = 1%nat /\
     (runTick env initialGlobals).(tick_globals) =
       {| done := negb (staysQuiet env);
          timers := if staysQuiet env then [100] else [] |}) /\
  Forall (fun r => (List.length r.(tick_globals).(timers) <= 1)%nat) (process envs).
Proof.
  split; [apply process_unfolds|]. split.
  - intros env. destruct (clean_tick_facts env) as (F & G & _). split; assumption.
  - rewrite process_unfolds. apply Forall_map, Forall_forall. intros env _.
    destruct (clean_tick_facts env) as (_ & G & _). rewrite G. simpl.
    destruct (staysQuiet env); simpl; lia.
Qed.

(** X11: the promise of [pollSporeApi] never rejects, whatever the feed and
    the swaps do and whatever [done] is: a call is resolved, or still waiting
    for a swap request to settle, and it leaves no swap running detached from
    the join. *)
Theorem poll_promise_never_rejects (env : TickEnv) (g : Globals) :
  ((runTick env g).(tick_status) = Resolved tt \/
   (runTick env g).(tick_status) = Blocked) /\
  (runTick env g).(tick_detached) = [].
Proof.
  destruct g.(done) eqn:Hd.
  { rewrite (tick_done env g Hd). auto. }
  destruct (env.(fetched) SPORE_API_URL) as [resp|e] eqn:Hf.
  2:{ rewrite (tick_fetch_fails env g Hd Hf). auto. }
  destruct (env.(parsed) resp) as [data|e] eqn:Hp.
  2:{ rewrite (tick_parse_fails env g Hd Hf Hp). auto. }
  destruct (revealDetected (tokenOf AGENT_ABEL_ID (snd data).(json))
                           (tokenOf AGENT_TRINITY_ID (snd data).(json))) eqn:Hr.
  2:{ rewrite (tick_no_reveal env g Hd Hf Hp Hr). auto. }
  rewrite (tick_reveal env g Hd Hf Hp Hr). cbn [tick_status tick_detached].
  destruct (isAllResolved _); auto.
Qed.

End Sniper.

(* ================================================================== *)
(** ** The module from its first line *)

Section Whole.

Variable Connection : Type.
Variable Keypair : Type.
Variable VersionedTransaction : Type.
Variable newConnection : jsstring -> Outcome Connection.
Variable bs58_decode : jsstring -> Outcome (list N).
Variable Keypair_fromSecretKey : list N -> Outcome Keypair.
(** [wallet.publicKey.toBase58()] for the wallet made of a keypair *)
Variable publicKeyBase58 : Keypair -> jsstring.
Variable Buffer_from_base64 : JsValue -> Outcome (list N).
Variable deserialize : list N -> Outcome VersionedTransaction.
(** [transaction.sign([wallet.payer])] for the wallet made of a keypair *)
Variable signWith : Keypair -> VersionedTransaction -> Outcome VersionedTransaction.
Variable serialize : VersionedTransaction -> Outcome RawTransaction.

(** The whole module: start-up, then the polling process with the wallet
    that start-up made. *)
Local Notation "'sniperModule' [ env ; envs ]" :=
  (runModule newConnection bs58_decode Keypair_fromSecretKey env
     (fun (_ : Connection) (keypair : Keypair) =>
        process (publicKeyBase58 keypair) Buffer_from_base64 deserialize
                (signWith keypair) serialize envs)).

(** X9: with [PRIVATE_KEY] unset or empty the module prints that the
    variable is not set and exits with status 1 before any tick; but the RPC
    connection is made first, so when [new Connection] throws the module
    crashes on that exception whatever the key, and the message is not
    printed. *)
Theorem missing_key_exits_before_polling (env : ProcessEnv) (envs : list TickEnv) :
  (forall connection,
     newConnection (RPC_URL env) = Returns connection ->
     env (str "PRIVATE_KEY") = None \/ env (str "PRIVATE_KEY") = Some (str "") ->
     sniperModule [env; envs] =
       Exited 1
         [ConsoleError
            [Val (JStr (str "Error: PRIVATE_KEY environment variable is not set."))]] /\
     ticksOf (sniperModule [env; envs]) = []) /\
  (forall e,
     newConnection (RPC_URL env) = Throws e ->
     sniperModule [env; envs] = Crashed e).
Proof.
  unfold runModule, envOr. split.
  - intros connection Hc Hk. rewrite Hc.
    destruct Hk as [-> | ->]; split; reflexivity.
  - intros e Hc. now rewrite Hc.
Qed.

(** X10: no tick without a wallet.  If the module comes to poll at all, then
    the connection was made for [RPC_URL], or for the public mainnet
    endpoint when that variable is unset, [PRIVATE_KEY] was set and not
    empty, it decoded to a secret key that made a keypair, and the ticks are
    those of the polling process run with that keypair's wallet. *)
Theorem polling_needs_a_wallet (env : ProcessEnv) (envs : list TickEnv) :
  ticksOf (sniperModule [env; envs]) <> [] ->
  exists url connection key secretKey keypair,
    (env (str "RPC_URL") = Some url \/
     env (str "RPC_URL") = None /\ url = str "https://api.mainnet-beta.solana.com") /\
    newConnection url = Returns connection /\
    env (str "PRIVATE_KEY") = Some key /\
    key <> [] /\
    bs58_decode key = Returns secretKey /\
    Keypair_fromSecretKey secretKey = Returns keypair /\
    sniperModule [env; envs] =
      Ran (process (publicKeyBase58 keypair) Buffer_from_base64 deserialize
                   (signWith keypair) serialize envs).
Proof.
  unfold runModule, RPC_URL, envOr. intros H.
  set (url := match env (str "RPC_URL") with
              | Some v => v
              | None => str "https://api.mainnet-beta.solana.com"
              end) in *.
  assert (Hu : env (str "RPC_URL") = Some url \/
               env (str "RPC_URL") = None /\
               url = str "https://api.mainnet-beta.solana.com").
  { subst url. destruct (env (str "RPC_URL")); [left | right]; auto. }
  destruct (newConnection url) as [connection|e] eqn:Hc; [|now elim H].
  destruct (env (str "PRIVATE_KEY")) as [key|] eqn:Hk; [|now elim H].
  destruct key as [|c key]; [now elim H|].
  cbn [truthy negb] in *.
  destruct (bs58_decode (c :: key)) as [secretKey|e] eqn:Hd; [|now elim H].
  destruct (Keypair_fromSecretKey secretKey) as [keypair|e] eqn:Hs; [|now elim H].
  exists url, connection, (c :: key), secretKey, keypair.
  repeat split; auto. discriminate.
Qed.

End Whole.

Local Notation "'sampleBuy'" :=
  (buyTokenWithJupiter sampleWallet sampleBufferFrom sampleDeserialize sampleSign
     sampleSerialize).
Local Notation "'sampleTick'" :=
  (runTick sampleWallet sampleBufferFrom sampleDeserialize sampleSign sampleSerialize).

(* ================================================================== *)
(** ** The statements at concrete inputs *)

Lemma firstWithId_head (a : Agent) (post : list Agent) :
  firstWithId a.(id) (a :: post) a.
Proof.
  exists [], post. split; [reflexivity|]. split; [intros x []|reflexivity].
Defined.

Lemma reveal_detection_trims_witness :
  revealed 6 [sampleAgent 6 (Some (str "  Addr123  "))] = true /\
  tokenOf 6 [sampleAgent 6 (Some (str "  Addr123  "))] = str "Addr123".
Proof.
  refine (proj2 (proj2
            (proj1 (proj2 (proj2
               (reveal_detection_trims sampleWallet sampleBufferFrom sampleDeserialize
                  sampleSign sampleSerialize 6
                  [sampleAgent 6 (Some (str "  Addr123  "))])))
               (sampleAgent 6 (Some (str "  Addr123  "))) _)) eq_refl).
  exact (firstWithId_head (sampleAgent 6 (Some (str "  Addr123  "))) []).
Defined.

(** An entity with the identifier and a token that is non-empty after
    trimming is in the snapshot, behind an entity with the same identifier
    whose token is empty: the target is not revealed, and the tick that
    obtains this snapshot starts no swap and asks for the next tick. *)
Lemma later_duplicate_is_not_revealed :
  In (sampleAgent 6 (Some (str "Second"))) tokenOnSecond /\
  id (sampleAgent 6 (Some (str "Second"))) = 6 /\
  trimmedToken (Some (sampleAgent 6 (Some (str "Second")))) = str "Second" /\
  revealed 6 tokenOnSecond = false /\
  tick_trace (sampleTick (feedOf tokenOnSecond []) initialGlobals) =
    [Own (Issued (Fetch SPORE_API_URL));
     Own (Issued (ResponseJson sampleResponse));
     Own (Acted (SetTimeout POLL_INTERVAL_MS))] /\
  done (tick_globals (sampleTick (feedOf tokenOnSecond []) initialGlobals)) = false.
Proof.
  split; [right; left; reflexivity|]. repeat split; reflexivity.
Qed.

Lemma duplicate_ids_first_wins_witness :
  findAgent 6 ([] ++ sampleAgent 6 (Some (str " First ")) ::
                     [sampleAgent 6 (Some (str "Second"))]) =
    Some (sampleAgent 6 (Some (str " First "))) /\
  tokenOf 6 ([] ++ sampleAgent 6 (Some (str " First ")) ::
                   [sampleAgent 6 (Some (str "Second"))]) = str "First".
Proof.
  destruct (@duplicate_ids_first_wins 6 [] [sampleAgent 6 (Some (str "Second"))]
              (sampleAgent 6 (Some (str " First "))))
    as (H1 & H2 & _).
  - intros x [].
  - reflexivity.
  - split; [exact H1 | rewrite H2; reflexivity].
Defined.

Lemma blank_address_is_noop_witness :
  isBlank (Some (str "   ")) = true /\
  sampleBuy (Some (str "   ")) = Do (invalidMint (Some (str "   "))) (Ret tt) /\
  kindsOf (fst (start (sampleBuy (Some (str "   "))))) = [].
Proof.
  destruct (blank_address_is_noop sampleWallet sampleBufferFrom sampleDeserialize
              sampleSign sampleSerialize (Some (str "   ")) eq_refl)
    as (H1 & _ & H3).
  split; [reflexivity|]. split; [exact H1 | exact H3].
Defined.

Lemma swap_sequence_witness :
  forallb isWhiteSpace (str "Mint1") = false /\
  fst (start (sampleBuy (Some (str "Mint1")))) =
    [Acted (attemptLog (str "Mint1")); Issued (quoteRequest (str "Mint1"))] /\
  kindsOf (fst (runSeq [happyOracle; happyOracle; happyOracle; happyOracle; happyOracle]
                       (sampleBuy (Some (str "Mint1"))))) =
    [KQuote; KBuild; KSubmit; KBlockhash; KConfirm] /\
  snd (runSeq [happyOracle; happyOracle; happyOracle; happyOracle; happyOracle]
              (sampleBuy (Some (str "Mint1")))) = Ret tt.
Proof.
  destruct (swap_sequence sampleWallet sampleBufferFrom sampleDeserialize
              sampleSign sampleSerialize (str "Mint1") eq_refl)
    as (H1 & _ & _ & _ & _ & H6).
  split; [reflexivity|]. split; [exact H1|].
  rewrite (H6 happyOracle happyOracle happyOracle happyOracle happyOracle
              (JObj [(str "outAmount", JStr (str "5"))])
              (JObj [(str "swapTransaction", JStr (str "AQID"))])
              (str "AQID" ++ [1%N]) (str "sig1")
              {| blockhash := str "bh"; lastValidBlockHeight := 42 |}
              {| context_slot := 1; value_err := JNull |}
              eq_refl eq_refl eq_refl eq_refl eq_refl eq_refl eq_refl eq_refl eq_refl).
  split; reflexivity.
Defined.

(** A quote response that carries an [error] field whose value is [null]
    does not fail the quote step: the executor goes on to the build
    request. *)
Lemma quote_with_null_error_field_passes :
  hasField (str "error") nullErrorQuote = true /\
  fst (runSeq [nullErrorOracle] (sampleBuy (Some (str "Mint1")))) =
    [Acted (attemptLog (str "Mint1"));
     Issued (quoteRequest (str "Mint1"));
     Issued (buildRequest sampleWallet nullErrorQuote)].
Proof. split; reflexivity. Qed.

Lemma one_revealed_target_triggers_witness :
  tick_globals (sampleTick (feedOf scenarioB firstSettlesFive) initialGlobals) =
    {| done := true; timers := [] |} /\
  subOf Second (tick_trace (sampleTick (feedOf scenarioB firstSettlesFive) initialGlobals)) =
    [Acted (invalidMint (Some (str "")))] /\
  kindsOf (subOf First
             (tick_trace (sampleTick (feedOf scenarioB firstSettlesFive) initialGlobals))) =
    [KQuote; KBuild; KSubmit; KBlockhash; KConfirm] /\
  tick_status (sampleTick (feedOf scenarioB firstSettlesFive) initialGlobals) = Resolved tt.
Proof.
  destruct (@one_revealed_target_triggers sampleWallet (list N) sampleBufferFrom
              sampleDeserialize sampleSign sampleSerialize
              (feedOf scenarioB firstSettlesFive) initialGlobals
              sampleResponse (sampleData scenarioB)
              (sampleAgent 6 (Some (str "Mint1"))) (sampleAgent 7 (Some (str "")))
              eq_refl eq_refl eq_refl
              (firstWithId_head (sampleAgent 6 (Some (str "Mint1")))
                 [sampleAgent 7 (Some (str ""))])
              eq_refl)
    as (_ & H2 & H3 & H4 & _ & _ & _ & H8).
  - exists [sampleAgent 6 (Some (str "Mint1"))], [].
    split; [reflexivity|]. split; [|reflexivity].
    intros x [<-|[]]. discriminate.
  - reflexivity.
  - split; [exact H4|]. split; [exact H3|].
    split; [rewrite H2; reflexivity | apply H8; simpl; apply le_n].
Defined.

Lemma fan_out_independent_witness :
  kindsOf (project First
             (fst (fst (join buildFailsFirst (sampleBuy (Some (str "A")))
                             (sampleBuy (Some (str "B"))))))) = [KQuote; KBuild] /\
  project Second
    (fst (fst (join buildFailsFirst (sampleBuy (Some (str "A")))
                    (sampleBuy (Some (str "B")))))) =
    fst (runSeq [happyOracle; happyOracle; happyOracle; happyOracle; happyOracle]
                (sampleBuy (Some (str "B")))) /\
  snd (fst (join buildFailsFirst (sampleBuy (Some (str "A")))
                 (sampleBuy (Some (str "B"))))) = AllResolved.
Proof.
  pose proof (fan_out_independent sampleWallet sampleBufferFrom sampleDeserialize
                sampleSign sampleSerialize buildFailsFirst
                (Some (str "A")) (Some (str "B"))) as H.
  cbv zeta in H. destruct H as (H1 & H2 & _ & _ & H5 & _).
  split; [rewrite H1; reflexivity|]. split; [exact H2 | rewrite H5; reflexivity].
Defined.

Lemma tick_reschedules_unless_detected_witness :
  sampleTick feedDown initialGlobals =
    {| tick_trace := [Own (Issued (Fetch SPORE_API_URL));
                      Own (Acted (pollFailed (Thrown (JStr (str "ECONNRESET")))));
                      Own (Acted (SetTimeout 100))];
       tick_status := Resolved tt;
       tick_globals := {| done := false; timers := [100] |};
       tick_detached := [] |}.
Proof.
  exact (proj1 (proj1 (tick_reschedules_unless_detected sampleWallet sampleBufferFrom
                         sampleDeserialize sampleSign sampleSerialize)
                  feedDown initialGlobals eq_refl)
           (Thrown (JStr (str "ECONNRESET"))) eq_refl).
Defined.


Lemma build_failure_submits_nothing_witness :
  runSeq [happyOracle; noTransactionOracle] (sampleBuy (Some (str "Mint1"))) =
    ([Acted (attemptLog (str "Mint1"));
      Issued (quoteRequest (str "Mint1"));
      Issued (buildRequest sampleWallet (JObj [(str "outAmount", JStr (str "5"))]))]
     ++ [Acted (swapFailed
                  (NewError (str "No swapTransaction found in response.") None))],
     Ret tt).
Proof.
  exact (proj1 (proj2 (proj2 (proj2
           (@build_failure_submits_nothing sampleWallet (list N) sampleBufferFrom
              sampleDeserialize sampleSign sampleSerialize
              (str "Mint1") happyOracle noTransactionOracle []
              (JObj [(str "outAmount", JStr (str "5"))])
              eq_refl eq_refl eq_refl))))
           (JObj [(str "note", JStr (str "empty"))]) eq_refl eq_refl eq_refl).
Defined.

Lemma failure_after_submission_witness :
  runSeq [happyOracle; happyOracle; happyOracle; blockhashThrows]
         (sampleBuy (Some (str "Mint1"))) =
    ([Acted (attemptLog (str "Mint1"));
      Issued (quoteRequest (str "Mint1"));
      Issued (buildRequest sampleWallet (JObj [(str "outAmount", JStr (str "5"))]));
      Issued (submitRequest (str "AQID" ++ [1%N]))]
     ++ [Issued GetLatestBlockhash;
         Acted (swapFailed (Thrown (JStr (str "rpc down"))))],
     Ret tt).
Proof.
  exact (proj1 (proj2
           (@failure_after_submission sampleWallet (list N) sampleBufferFrom
              sampleDeserialize sampleSign sampleSerialize
              (str "Mint1") happyOracle happyOracle happyOracle blockhashThrows
              happyOracle []
              (JObj [(str "outAmount", JStr (str "5"))])
              (JObj [(str "swapTransaction", JStr (str "AQID"))])
              (str "AQID" ++ [1%N])
              eq_refl eq_refl eq_refl eq_refl eq_refl eq_refl eq_refl))
           (str "sig1") (Thrown (JStr (str "rpc down"))) eq_refl eq_refl).
Defined.

Lemma swap_reports_once_witness :
  actsOf (fst (runSeq [happyOracle; happyOracle; happyOracle; happyOracle; happyOracle]
                      (sampleBuy (Some (str "Mint1"))))) =
    [attemptLog (str "Mint1");
     ConsoleLog [Val (JStr (str "Swap successful!"))];
     ConsoleLog [Val (JStr (str "View on Solscan: https://solscan.io/tx/sig1"))]] /\
  isReport
    [ConsoleLog [Val (JStr (str "Swap successful!"))];
     ConsoleLog [Val (JStr (str "View on Solscan: https://solscan.io/tx/sig1"))]].
Proof.
  destruct (@swap_reports_once sampleWallet (list N) sampleBufferFrom
              sampleDeserialize sampleSign sampleSerialize (str "Mint1")
              [happyOracle; happyOracle; happyOracle; happyOracle; happyOracle] eq_refl)
    as [[H _] | [_ (report & H1 & H2)]].
  - discriminate H.
  - split; [reflexivity|]. injection H1 as <-. exact H2.
Defined.

Lemma fan_out_opens_both_swaps_witness :
  exists rest,
    tick_trace (sampleTick (feedOf bothRevealed []) initialGlobals) =
      [Own (Issued (Fetch SPORE_API_URL));
       Own (Issued (ResponseJson sampleResponse));
       Own (Acted SetDone);
       Own (Acted (detectedLog (str "MintA") (str "MintT")));
       Own (Issued (PromiseAll (sampleBuy (Some (str "MintA")))
                               (sampleBuy (Some (str "MintT")))))]
      ++ [Sub First (Acted (attemptLog (str "MintA")));
          Sub First (Issued (quoteRequest (str "MintA")))]
      ++ [Sub Second (Acted (attemptLog (str "MintT")));
          Sub Second (Issued (quoteRequest (str "MintT")))]
      ++ List.map (fun x => Sub (fst x) (snd x)) rest.
Proof.
  exact (proj1
           (@fan_out_opens_both_swaps sampleWallet (list N) sampleBufferFrom
              sampleDeserialize sampleSign sampleSerialize
              (feedOf bothRevealed []) initialGlobals sampleResponse
              (sampleData bothRevealed) eq_refl eq_refl eq_refl
              (or_introl eq_refl))).
Defined.

Lemma polling_persists_witness :
  List.length
    (process sampleWallet sampleBufferFrom sampleDeserialize sampleSign sampleSerialize
       quietFeeds) = 3%nat.
Proof.
  exact (proj1
           (@polling_persists sampleWallet (list N) sampleBufferFrom
              sampleDeserialize sampleSign sampleSerialize quietFeeds eq_refl)).
Defined.

Lemma polling_needs_a_wallet_witness :
  exists url connection key secretKey keypair,
    (envWithKey (str "RPC_URL") = Some url \/
     envWithKey (str "RPC_URL") = None /\ url = str "https://api.mainnet-beta.solana.com") /\
    sampleNewConnection url = Returns connection /\
    envWithKey (str "PRIVATE_KEY") = Some key /\
    key <> [] /\
    sampleDecode key = Returns secretKey /\
    sampleFromSecretKey secretKey = Returns keypair /\
    runModule sampleNewConnection sampleDecode sampleFromSecretKey envWithKey
      (fun (_ : jsstring) (keypair : list N) =>
         process (samplePublicKey keypair) sampleBufferFrom sampleDeserialize
                 (sampleSignWith keypair) sampleSerialize quietFeeds) =
      Ran (process (samplePublicKey keypair) sampleBufferFrom sampleDeserialize
                   (sampleSignWith keypair) sampleSerialize quietFeeds).
Proof.
  apply (@polling_needs_a_wallet jsstring (list N) (list N) sampleNewConnection
           sampleDecode sampleFromSecretKey samplePublicKey sampleBufferFrom
           sampleDeserialize sampleSignWith sampleSerialize envWithKey quietFeeds).
  vm_compute. discriminate.
Defined.
